(** * HornetHive accounting: the identity core of [auth.js]

    A shallow embedding of [ensureUniqueUsername], [signupUser],
    [loginUserByUsername], [getRole] and [isActive], together with the
    parts of their collaborators that decide what they return:

    - JavaScript values and objects ([value], [gmap string value]);
    - the Supabase/PostgREST client: a table of rows, the [eq] and [ilike]
      filters, [single], [maybeSingle], [insert] and [update], and the
      [{data, error}] responses;
    - [bcrypt]: the modular-crypt layout of a credential around an abstract
      digest;
    - [Date]: time values, [getMonth], [setMonth] and [toISOString].

    After the workflows come [baseUsername] and the route handlers of
    [server.js] (signup, login, approve, reject), with nodemailer's
    transport as an outbox.

    Conventions of the model.  Strings are byte strings (UTF-8); case
    folding and white space are the ASCII ones, so that the string functions
    are JavaScript's on ASCII text.  JSON numbers are integers.  The [Date]
    methods work in the time zone of the process, which the world carries.
    A row of the table holds the columns that were written to it; a column
    an insert leaves out is absent from the row (the store would show its
    default, or null).  A store request fails when the environment says so:
    the world carries the list of faults of the coming requests. *)

From Stdlib Require Import ZArith Ascii String.
From stdpp Require Import base option list gmap strings pretty.

Local Open Scope Z_scope.

(** ** JavaScript values and objects *)

Inductive value : Type :=
  | VUndef
  | VNull
  | VBool (b : bool)
  | VNum (n : Z)
  | VStr (s : string).

#[global] Instance value_eq_dec : EqDecision value.
Proof. solve_decision. Defined.

(** An object is a finite map from property names to values. *)
Abbreviation obj := (gmap string value).

(** [o.k]: a missing property reads as [undefined]. *)
Definition get (o : obj) (k : string) : value := default VUndef (o !! k).

(** ToBoolean. *)
Definition truthy (v : value) : bool :=
  match v with
  | VUndef | VNull => false
  | VBool b => b
  | VNum n => negb (n =? 0)
  | VStr s => negb (String.eqb s "")
  end.

(** [a || b]. *)
Definition js_or (a b : value) : value := if truthy a then a else b.

(** ToString, as used by template literals and by the query builder. *)
Definition ToString (v : value) : string :=
  match v with
  | VUndef => "undefined"
  | VNull => "null"
  | VBool true => "true"
  | VBool false => "false"
  | VNum n => pretty n
  | VStr s => s
  end.

(** [a === b]. *)
Definition strict_eq (a b : value) : bool := bool_decide (a = b).

(** ** Strings *)

Definition lower_ascii (c : ascii) : ascii :=
  let n := N_of_ascii c in
  if ((65 <=? n) && (n <=? 90))%N then ascii_of_N (n + 32) else c.

(** [s.toLowerCase()]. *)
Fixpoint toLowerCase (s : string) : string :=
  match s with
  | EmptyString => EmptyString
  | String c s' => String (lower_ascii c) (toLowerCase s')
  end.

(** [s.startsWith(p)]. *)
Fixpoint startsWith (s p : string) {struct p} : bool :=
  match p, s with
  | EmptyString, _ => true
  | String a p', String b s' => (Ascii.eqb a b && startsWith s' p')%bool
  | String _ _, EmptyString => false
  end.

(** ** The store: PostgREST behind the Supabase client *)

(** The error object of a response. *)
Record pg_error : Type := PgError { message : string; code : string }.

#[global] Instance pg_error_eq_dec : EqDecision pg_error.
Proof. solve_decision. Defined.

(** The [{data, error}] object a request resolves to. *)
Record response (A : Type) : Type := Response
  { data : option A; error : option pg_error }.
Arguments Response {A} _ _.
Arguments data {A} _.
Arguments error {A} _.

Definition ok_response {A} (a : A) : response A := Response (Some a) None.
Definition null_response {A} : response A := Response None None.
Definition error_response {A} (e : pg_error) : response A := Response None (Some e).

(** PGRST116: what [single] answers unless exactly one row matched, and
    [maybeSingle] when several did. *)
Definition PGRST116 : pg_error :=
  PgError "JSON object requested, multiple (or no) rows returned" "PGRST116".

(** The time zone of the process: how far local time is ahead of UTC, in
    milliseconds, at an instant and at a local time (the two readings part
    around a change of offset). *)
Record time_zone : Type := TimeZone
  { offset_at : Z -> Z;        (* at the instant [t] *)
    offset_of_local : Z -> Z }. (* at the local time [t] *)

(** The world the workflows run in. *)
Record world : Type := World
  { table : list obj;               (* the rows of [users] *)
    faults : list (option pg_error); (* the outcome of the coming requests *)
    next_id : Z;                     (* the store's id sequence *)
    clock : Z;                       (* [new Date()], ms since the epoch *)
    entropy : list N;                (* the salts bcrypt will draw *)
    zone : time_zone }.              (* the local time zone *)

(** *** SQL [LIKE] patterns

    [%] matches any run of characters and [_] any single one; a backslash
    takes the next character literally.  PostgREST reads [*] as [%].  A
    pattern that ends in a lone backslash matches nothing (PostgreSQL
    rejects it; the callers below treat a rejected query and an empty
    result alike). *)
Fixpoint like (p s : string) {struct p} : bool :=
  match p with
  | EmptyString => match s with EmptyString => true | _ => false end
  | String c p' =>
      if (Ascii.eqb c "%" || Ascii.eqb c "*")%bool then
        (fix skip (s : string) : bool :=
           (like p' s ||
            match s with
            | EmptyString => false
            | String _ s' => skip s'
            end)%bool) s
      else if Ascii.eqb c "_" then
        match s with
        | EmptyString => false
        | String _ s' => like p' s'
        end
      else if Ascii.eqb c "\" then
        match p', s with
        | String c' p'', String d s' => (Ascii.eqb c' d && like p'' s')%bool
        | _, _ => false
        end
      else
        match s with
        | EmptyString => false
        | String d s' => (Ascii.eqb c d && like p' s')%bool
        end
  end.

(** [ILIKE]: [LIKE] up to case. *)
Definition ilike (p s : string) : bool := like (toLowerCase p) (toLowerCase s).

(** The filters the workflows use. *)
Inductive row_filter : Type :=
  | FEq (col : string) (v : value)       (* [.eq(col, v)] *)
  | FIlike (col : string) (pat : string). (* [.ilike(col, pat)] *)

(** A filter selects a row by the text of its column; NULL matches nothing. *)
Definition matches (f : row_filter) (r : obj) : bool :=
  match f with
  | FEq col v =>
      match r !! col with
      | None | Some VUndef | Some VNull => false
      | Some x => String.eqb (ToString x) (ToString v)
      end
  | FIlike col pat =>
      match r !! col with
      | Some (VStr s) => ilike pat s
      | _ => false
      end
  end.

Definition selected (f : row_filter) (w : world) : list obj :=
  List.filter (matches f) (table w).

(** [.select(cols)]: [None] is ['*']. *)
Definition project (cols : option (list string)) (r : obj) : obj :=
  match cols with
  | None => r
  | Some cs => filter (fun kv => kv.1 ∈ cs) r
  end.

(** ** Computations: state, exceptions, and the bound of the model's loops *)

Inductive outcome (A : Type) : Type :=
  | Ret (a : A)          (* the promise resolves *)
  | Throw (msg : string) (* an exception with this [message] *)
  | Spin.                (* the model's loop bound was reached *)
Arguments Ret {A} _.
Arguments Throw {A} _.
Arguments Spin {A}.

Definition M (A : Type) : Type := world -> outcome A * world.

Definition ret {A} (a : A) : M A := fun w => (Ret a, w).

Definition bind {A B} (m : M A) (f : A -> M B) : M B := fun w =>
  match m w with
  | (Ret a, w') => f a w'
  | (Throw msg, w') => (Throw msg, w')
  | (Spin, w') => (Spin, w')
  end.

(** [const x = await m; k] *)
Notation "'let*' x ':=' m 'in' k" := (bind m (fun x => k))
  (at level 10, x name, m at level 100, k at level 200).

Definition throw {A} (msg : string) : M A := fun w => (Throw msg, w).

(** [try { m } catch (err) { h err.message }]. *)
Definition try_catch {A} (m : M A) (h : string -> M A) : M A := fun w =>
  match m w with
  | (Throw msg, w') => h msg w'
  | r => r
  end.

Definition set_table (t : list obj) (w : world) : world :=
  World t (faults w) (next_id w) (clock w) (entropy w) (zone w).
Definition set_faults (fs : list (option pg_error)) (w : world) : world :=
  World (table w) fs (next_id w) (clock w) (entropy w) (zone w).
Definition set_next_id (n : Z) (w : world) : world :=
  World (table w) (faults w) n (clock w) (entropy w) (zone w).
Definition set_entropy (e : list N) (w : world) : world :=
  World (table w) (faults w) (next_id w) (clock w) e (zone w).

(** One request to the store.  The client never throws: a failed request
    resolves to [{data: null, error}] and leaves the table alone. *)
Definition request {A} (run : world -> response A * world) : M (response A) :=
  fun w =>
    match faults w with
    | Some e :: fs => (Ret (error_response e), set_faults fs w)
    | None :: fs => let (r, w') := run (set_faults fs w) in (Ret r, w')
    | [] => let (r, w') := run w in (Ret r, w')
    end.

(** [from('users').select(cols).<filter>] *)
Definition select_where (cols : option (list string)) (f : row_filter)
  : M (response (list obj)) :=
  request (fun w => (ok_response (project cols <$> selected f w), w)).

(** [... .single()]: exactly one row, or an error. *)
Definition single (cols : option (list string)) (f : row_filter)
  : M (response obj) :=
  request (fun w =>
    (match selected f w with
     | [r] => ok_response (project cols r)
     | _ => error_response PGRST116
     end, w)).

(** [... .maybeSingle()]: no row is [null], several are an error. *)
Definition maybeSingle (cols : option (list string)) (f : row_filter)
  : M (response obj) :=
  request (fun w =>
    (match selected f w with
     | [] => null_response
     | [r] => ok_response (project cols r)
     | _ => error_response PGRST116
     end, w)).

(** The store gives a row its [id] unless the row brings one. *)
Fixpoint assign_ids (next : Z) (rows : list obj) : list obj * Z :=
  match rows with
  | [] => ([], next)
  | r :: rows' =>
      match r !! "id" with
      | Some _ => let (rs, n) := assign_ids next rows' in (r :: rs, n)
      | None =>
          let (rs, n) := assign_ids (next + 1) rows' in
          (<["id" := VNum next]> r :: rs, n)
      end
  end.

(** [from('users').insert(rows)] *)
Definition insert (rows : list obj) : M (response unit) :=
  request (fun w =>
    let (rs, n) := assign_ids (next_id w) rows in
    (null_response, set_next_id n (set_table (table w ++ rs) w))).

(** [from('users').update(patch).<filter>] *)
Definition update (patch : obj) (f : row_filter) : M (response unit) :=
  request (fun w =>
    (null_response,
     set_table ((fun r => if matches f r then patch ∪ r else r) <$> table w) w)).

(** ** bcrypt

    A credential is [$2b$<cost>$<22 characters of salt><digest>]; the
    comparison hashes the candidate under the settings of the stored
    credential and compares the two strings.  The digest itself is left
    abstract. *)

Class BcryptCore := bcrypt_raw : string -> string -> string.

Definition SALT_ROUNDS : Z := 12.

Definition bcrypt_alphabet : string :=
  "./ABCDEFGHIJKLMNOPQRSTUVWXYZabcdefghijklmnopqrstuvwxyz0123456789".

Definition b64_char (n : N) : ascii :=
  default "."%char (String.get (N.to_nat (n mod 64)%N) bcrypt_alphabet).

Fixpoint b64_digits (k : nat) (n : N) : string :=
  match k with
  | O => EmptyString
  | S k' => String (b64_char n) (b64_digits k' (n / 64)%N)
  end.

Definition pad2 (n : Z) : string :=
  if n <? 10 then "0" +:+ pretty n else pretty n.

(** [bcrypt.genSalt(rounds)] *)
Definition genSalt (rounds : Z) : M string := fun w =>
  let seed := default 0%N (head (entropy w)) in
  (Ret ("$2b$" +:+ pad2 rounds +:+ "$" +:+ b64_digits 22 seed),
   set_entropy (tail (entropy w)) w).

Definition crypt `{BcryptCore} (settings data : string) : string :=
  settings +:+ bcrypt_raw settings data.

(** [bcrypt.hash(data, rounds)] *)
Definition bcrypt_hash `{BcryptCore} (data : value) (rounds : Z) : M string :=
  match data with
  | VUndef | VNull => throw "data and salt arguments required"
  | VStr s => let* salt := genSalt rounds in ret (crypt salt s)
  | _ => throw "data must be a string or Buffer and salt must either be a salt string or a number of rounds"
  end.

(** [bcrypt.compare(data, hash)] *)
Definition bcrypt_compare `{BcryptCore} (data : value) (hash : string) : M bool :=
  match data with
  | VUndef | VNull => throw "data and hash arguments required"
  | VStr s => ret (String.eqb (crypt (String.substring 0 29 hash) s) hash)
  | _ => throw "data and hash must be strings"
  end.

(** ** Date *)

Definition msPerDay : Z := 86400000.
Definition Day (t : Z) : Z := t / msPerDay.
Definition TimeWithinDay (t : Z) : Z := t mod msPerDay.

(** The day number of the civil date [y]-[m+1]-[d], [m] in 0..11. *)
Definition days_from_civil (y m d : Z) : Z :=
  let y' := if m <? 2 then y - 1 else y in
  let era := y' / 400 in
  let yoe := y' mod 400 in
  let mp := if m <? 2 then m + 10 else m - 2 in
  let doy := (153 * mp + 2) / 5 + d - 1 in
  let doe := yoe * 365 + yoe / 4 - yoe / 100 + doy in
  era * 146097 + doe - 719468.

(** The civil date [(year, month 0..11, day 1..31)] of a day number. *)
Definition civil_from_days (z : Z) : Z * Z * Z :=
  let z' := z + 719468 in
  let era := z' / 146097 in
  let doe := z' mod 146097 in
  let yoe := (doe - doe / 1460 + doe / 36524 - doe / 146096) / 365 in
  let doy := doe - (365 * yoe + yoe / 4 - yoe / 100) in
  let mp := (5 * doy + 2) / 153 in
  let d := doy - (153 * mp + 2) / 5 + 1 in
  let m := if mp <? 10 then mp + 2 else mp - 10 in
  (if m <? 2 then yoe + era * 400 + 1 else yoe + era * 400, m, d).

Definition YearFromTime (t : Z) : Z := (civil_from_days (Day t)).1.1.
Definition MonthFromTime (t : Z) : Z := (civil_from_days (Day t)).1.2.
Definition DateFromTime (t : Z) : Z := (civil_from_days (Day t)).2.

Definition MakeDay (year month date : Z) : Z :=
  let ym := year + month / 12 in
  let mn := month mod 12 in
  days_from_civil ym mn 1 + date - 1.

Definition MakeDate (day time : Z) : Z := day * msPerDay + time.

(** [new Date()] *)
Definition new_Date : M Z := fun w => (Ret (clock w), w).

(** The time zone the methods of a [Date] work in. *)
Definition local_zone : M time_zone := fun w => (Ret (zone w), w).

Definition utc : time_zone := TimeZone (fun _ => 0) (fun _ => 0).

(** The local time of an instant, and the instant of a local time. *)
Definition LocalTime (z : time_zone) (t : Z) : Z := t + offset_at z t.
Definition UTC (z : time_zone) (t : Z) : Z := t - offset_of_local z t.

(** [d.getMonth()] *)
Definition getMonth (z : time_zone) (t : Z) : Z := MonthFromTime (LocalTime z t).

(** The local time [t] with its month set to [m]; the day of the month and
    the time of day stay, and a day the month does not have runs over into
    the next month. *)
Definition with_month (t m : Z) : Z :=
  MakeDate (MakeDay (YearFromTime t) m (DateFromTime t)) (TimeWithinDay t).

(** [d.setMonth(m)]: the time value [d] holds afterwards. *)
Definition setMonth (z : time_zone) (t m : Z) : Z :=
  UTC z (with_month (LocalTime z t) m).

Fixpoint zeros (k : nat) : string :=
  match k with
  | O => EmptyString
  | S k' => String "0" (zeros k')
  end.

(** [String(n).padStart(w, '0')] *)
Definition padStart (w : nat) (n : Z) : string :=
  let s := pretty n in zeros (w - String.length s) +:+ s.

(** [d.toISOString()] *)
Definition toISOString (t : Z) : string :=
  let '(y, m, d) := civil_from_days (Day t) in
  let ms := TimeWithinDay t in
  let year :=
    if (0 <=? y) && (y <=? 9999) then padStart 4 y
    else if y <? 0 then "-" +:+ padStart 6 (- y)
    else "+" +:+ padStart 6 y in
  year +:+ "-" +:+ padStart 2 (m + 1) +:+ "-" +:+ padStart 2 d +:+ "T"
    +:+ padStart 2 (ms / 3600000) +:+ ":" +:+ padStart 2 (ms / 60000 mod 60)
    +:+ ":" +:+ padStart 2 (ms / 1000 mod 60) +:+ "." +:+ padStart 3 (ms mod 1000)
    +:+ "Z".

(** ** auth.js *)

(** *** [ensureUniqueUsername] *)

(** The double quote, as error messages print it. *)
Definition dq : string := String (ascii_of_nat 34) EmptyString.

(** [(r.username || '').toLowerCase()]; [None] when the receiver is not a
    string, which raises a [TypeError]. *)
Definition lowered_username (r : obj) : option string :=
  match js_or (get r "username") (VStr "") with
  | VStr s => Some (toLowerCase s)
  | _ => None
  end.

(** [`${desired.toLowerCase()}-${n}`] *)
Definition candidate (desired : string) (n : nat) : string :=
  toLowerCase desired +:+ "-" +:+ pretty n.

(** [while (existing.has(candidate n)) n++], at most [fuel] tests; the
    value of [n] on exit. *)
Fixpoint probe (existing : gset string) (desired : string) (fuel n : nat)
  : option nat :=
  match fuel with
  | O => None
  | S fuel' =>
      if decide (candidate desired n ∈ existing)
      then probe existing desired fuel' (S n)
      else Some n
  end.

Definition ensureUniqueUsername (fuel : nat) (desired : string) : M string :=
  let* r := select_where (Some ["username"]) (FIlike "username" (desired +:+ "%")) in
  match error r, data r with
  | Some _, _ | None, None | None, Some [] => ret desired
  | None, Some rows =>
      match mapM lowered_username rows with
      | None =>
          throw ("(r.username || " +:+ dq +:+ dq +:+ ").toLowerCase is not a function")
      | Some names =>
          let existing : gset string := list_to_set names in
          if decide (toLowerCase desired ∈ existing) then
            match probe existing desired fuel 2 with
            | Some n => ret (candidate desired n)
            | None => fun w => (Spin, w)
            end
          else ret desired
      end
  end.

(** *** [signupUser] *)

Inductive signup_result : Type :=
  | SignupError (msg : string)       (* [{ error: '...' }] *)
  | SignupStoreError (e : pg_error)  (* [{ error }], the store's object *)
  | SignupMessage (msg : string).    (* [{ message: '...' }] *)

(** The object literal handed to [insert]: the spread of [user], then the
    four properties the workflow sets. *)
Definition signup_record (user : obj) (hashedPassword : string)
    (now password_expire : Z) : obj :=
  <["password_expire" := VStr (toISOString password_expire)]>
    (<["password_fresh" := VStr (toISOString now)]>
      (<["approved" := VBool false]>
        (<["password" := VStr hashedPassword]> user))).

Definition signupUser `{BcryptCore} (user : obj) : M signup_result :=
  try_catch
    (let* r := maybeSingle (Some ["id"]) (FEq "email" (get user "email")) in
     match data r with
     | Some _ => ret (SignupError "Email already registered")
     | None =>
         let* hashedPassword := bcrypt_hash (get user "password") SALT_ROUNDS in
         let* now := new_Date in
         let* tz := local_zone in
         let password_expire := setMonth tz now (getMonth tz now + 3) in
         let* ins := insert [signup_record user hashedPassword now password_expire] in
         match error ins with
         | Some e => ret (SignupStoreError e)
         | None => ret (SignupMessage "Signup successful, awaiting approval")
         end
     end)
    (fun msg => ret (SignupError msg)).

(** *** [loginUserByUsername] *)

Inductive login_result : Type :=
  | LoginError (msg : string) (* [{ error: '...' }] *)
  | LoginUser (user : obj).   (* [{ user: safeUser }] *)

(** [stored.startsWith('$2')] *)
Definition isHashed (stored : string) : bool := startsWith stored "$2".

(** [isHashed ? await bcrypt.compare(password, stored) : stored === password] *)
Definition verify `{BcryptCore} (password : value) (stored : string) : M bool :=
  if isHashed stored then bcrypt_compare password stored
  else ret (strict_eq (VStr stored) password).

(** [if (!isHashed) { ... update({ password: newHash }).eq('id', user.id) }] *)
Definition migrate `{BcryptCore} (user : obj) (password : value)
    (stored : string) : M unit :=
  if negb (isHashed stored) then
    let* newHash := bcrypt_hash password SALT_ROUNDS in
    let* _ := update {["password" := VStr newHash]} (FEq "id" (get user "id")) in
    ret tt
  else ret tt.

Definition loginUserByUsername `{BcryptCore} (username password : value)
  : M login_result :=
  try_catch
    (let* r := single None (FIlike "username" (ToString username)) in
     match error r, data r with
     | Some _, _ | None, None => ret (LoginError "No account found")
     | None, Some user =>
         if negb (truthy (get user "approved"))
         then ret (LoginError "Account awaiting approval")
         else
           match js_or (get user "password") (VStr "") with
           | VStr stored =>
               let* valid := verify password stored in
               if negb valid then ret (LoginError "Incorrect password")
               else
                 let* _ := migrate user password stored in
                 ret (LoginUser (delete "password" user))
           | _ => throw "stored.startsWith is not a function"
           end
     end)
    (fun msg => ret (LoginError msg)).

(** *** [getRole] and [isActive] *)

(** [error?.message] *)
Definition optional_message (e : option pg_error) : value :=
  match e with
  | Some e => VStr (message e)
  | None => VUndef
  end.

Inductive role_result : Type :=
  | RoleError (err : value) (* [{ error: ... }] *)
  | RoleOk (role : value).  (* [{ role: data.role }] *)

Definition getRole (email : value) : M role_result :=
  let* r := single (Some ["role"]) (FEq "email" email) in
  match error r, data r with
  | Some _, _ | None, None =>
      ret (RoleError (js_or (optional_message (error r)) (VStr "Role not found")))
  | None, Some d => ret (RoleOk (get d "role"))
  end.

Inductive active_result : Type :=
  | ActiveError (err : value)  (* [{ error: ... }] *)
  | ActiveOk (active : value). (* [{ active: data.active }] *)

Definition isActive (email : value) : M active_result :=
  let* r := single (Some ["active"]) (FEq "email" email) in
  match error r, data r with
  | Some _, _ | None, None =>
      ret (ActiveError (js_or (optional_message (error r)) (VStr "User not found")))
  | None, Some d => ret (ActiveOk (get d "active"))
  end.

(** ** What a request sees *)

(** The fault, if any, that the next request meets. *)
Definition next_fault (w : world) : option pg_error :=
  match faults w with
  | Some e :: _ => Some e
  | _ => None
  end.

(** The world once that request has been served (table aside). *)
Definition served (w : world) : world := set_faults (tail (faults w)) w.

(** The rows [ensureUniqueUsername]'s prefix query returns. *)
Definition snapshot (desired : string) (w : world) : list obj :=
  project (Some ["username"]) <$> selected (FIlike "username" (desired +:+ "%")) w.

(** A row whose [username] is text or empty: the resolver can lowercase it. *)
Definition text_username (r : obj) : Prop := is_Some (lowered_username r).

#[global] Instance text_username_dec r : Decision (text_username r).
Proof. unfold text_username. apply _. Defined.

(** The lowercased names of a snapshot: the elements of [existing]. *)
Definition lowered_names (rows : list obj) : list string :=
  default [] (mapM lowered_username rows).

(** [base-n] *)
Definition suffixed (base : string) (n : nat) : string :=
  base +:+ "-" +:+ pretty n.

(** [name] is the first of [base-2], [base-3], ... whose lowercasing is not
    among [names]. *)
Definition first_free_suffix (base : string) (names : list string)
    (name : string) : Prop :=
  ∃ n, (2 <= n)%nat ∧ name = suffixed base n ∧ (toLowerCase name ∉ names) ∧
       ∀ m, (2 <= m < n)%nat → toLowerCase (suffixed base m) ∈ names.

(** The settings [genSalt] hands out in [w], and the world it leaves. *)
Definition drawn_salt (w : world) : string :=
  "$2b$12$" +:+ b64_digits 22 (default 0%N (head (entropy w))).

Definition salted (w : world) : world := set_entropy (tail (entropy w)) w.

(** The table once [update({password: credential}).eq('id', id)] is through. *)
Definition rewritten (id : value) (credential : string) (t : list obj)
  : list obj :=
  (fun r => if matches (FEq "id" id) r
            then <["password" := VStr credential]> r else r) <$> t.

(** The record a signup at [w] hands to the store. *)
Definition record_at `{BcryptCore} (user : obj) (plaintext : string)
    (w : world) : obj :=
  signup_record user (crypt (drawn_salt w) plaintext) (clock w)
    (setMonth (zone w) (clock w) (getMonth (zone w) (clock w) + 3)).

(** The same record as the store keeps it. *)
Definition stored_record `{BcryptCore} (user : obj) (plaintext : string)
    (w : world) : obj :=
  match user !! "id" with
  | Some _ => record_at user plaintext w
  | None => <["id" := VNum (next_id w)]> (record_at user plaintext w)
  end.

(** What is left of a signup once the lookup has answered. *)
Definition signup_rest `{BcryptCore} (user : obj) : M signup_result :=
  try_catch
    (let* hashedPassword := bcrypt_hash (get user "password") SALT_ROUNDS in
     let* now := new_Date in
     let* tz := local_zone in
     let password_expire := setMonth tz now (getMonth tz now + 3) in
     let* ins := insert [signup_record user hashedPassword now password_expire] in
     match error ins with
     | Some e => ret (SignupStoreError e)
     | None => ret (SignupMessage "Signup successful, awaiting approval")
     end)
    (fun msg => ret (SignupError msg)).

(** Two usernames are the same up to case. *)
Definition same_username (input stored : string) : bool :=
  String.eqb (toLowerCase input) (toLowerCase stored).

(** The characters [LIKE] does not take literally. *)
Definition wildcard (c : ascii) : bool :=
  (Ascii.eqb c "%" || Ascii.eqb c "*" || Ascii.eqb c "_" || Ascii.eqb c "\")%bool.

Fixpoint plain (p : string) : bool :=
  match p with
  | EmptyString => true
  | String c p' => (negb (wildcard c) && plain p')%bool
  end.

(** The calendar month of a time value, counted from year 0. *)
Definition month_index (t : Z) : Z := YearFromTime t * 12 + MonthFromTime t.

(** ** A digest and a few worlds to run the workflows on *)

Module Demo.

(** Any function will do as a digest; this one keeps the plaintext
    recognisable, which makes the runs below easy to read. *)
Definition toy : BcryptCore := fun settings data => "#" +:+ data.

Definition row (l : list (string * value)) : obj := list_to_map l.

(** No fault pending, the clock at 2023-11-30T12:00:00Z, the zone UTC. *)
Definition quiet (t : list obj) : world := World t [] 100 1701345600000 [] utc.

(** The same, with the next request failing with [e]. *)
Definition faulty (e : pg_error) (t : list obj) : world :=
  World t [Some e] 100 1701345600000 [] utc.

Definition alice : obj :=
  row [("id", VNum 1); ("email", VStr "alice@hive.test");
       ("username", VStr "abc01"); ("password", VStr "wax");
       ("approved", VBool true); ("active", VBool true);
       ("role", VStr "admin")].

Definition bob : obj :=
  row [("id", VNum 2); ("email", VStr "bob@hive.test");
       ("username", VStr "ABC01-2"); ("password", VStr "comb");
       ("approved", VBool false); ("active", VBool true);
       ("role", VStr "accountant")].

(** A second row under alice's email. *)
Definition alice2 : obj :=
  row [("id", VNum 3); ("email", VStr "alice@hive.test");
       ("username", VStr "alice2"); ("password", VStr "wax");
       ("approved", VBool false)].

(** A signup that tries to approve itself. *)
Definition carol : obj :=
  row [("email", VStr "carol@hive.test"); ("username", VStr "cdr1123");
       ("password", VStr "nectar"); ("approved", VBool true);
       ("password_fresh", VStr "never"); ("role", VStr "admin")].

(** A newcomer who gives alice's email. *)
Definition mallory : obj :=
  row [("email", VStr "alice@hive.test"); ("username", VStr "mal0124");
       ("password", VStr "sting")].

Definition login := @loginUserByUsername toy.
Definition signup := @signupUser toy.

End Demo.

(** ** auth.js, continued *)

(** *** [baseUsername] *)

(** [\s], and what [trim] strips. *)
Definition is_space (c : ascii) : bool := Ascii.is_space c.

(** [s.trimStart()] *)
Fixpoint trimStart (s : string) : string :=
  match s with
  | EmptyString => EmptyString
  | String c s' => if is_space c then trimStart s' else s
  end.

(** [s.trimEnd()] *)
Fixpoint trimEnd (s : string) : string :=
  match s with
  | EmptyString => EmptyString
  | String c s' =>
      match trimEnd s' with
      | EmptyString => if is_space c then EmptyString else String c EmptyString
      | t => String c t
      end
  end.

(** [s.trim()] *)
Definition trim (s : string) : string := trimEnd (trimStart s).

(** [s.charAt(0)] *)
Definition charAt0 (s : string) : string :=
  match s with
  | EmptyString => EmptyString
  | String c _ => String c EmptyString
  end.

(** [s.replace(/\s+/g, '')] *)
Fixpoint remove_spaces (s : string) : string :=
  match s with
  | EmptyString => EmptyString
  | String c s' => if is_space c then remove_spaces s' else String c (remove_spaces s')
  end.

(** [s.slice(-2)] *)
Definition slice_last2 (s : string) : string :=
  String.substring (String.length s - 2) 2 s.

(** [d.getFullYear()] *)
Definition getFullYear (z : time_zone) (t : Z) : Z := YearFromTime (LocalTime z t).

(** [(v || '')] as the receiver of a string method of [v]; a receiver that
    is not a string raises a [TypeError]. *)
Definition string_receiver (v : value) (name method : string) : M string :=
  match js_or v (VStr "") with
  | VStr s => ret s
  | _ => throw ("(" +:+ name +:+ " || " +:+ dq +:+ dq +:+ ")." +:+ method
                  +:+ " is not a function")
  end.

(** [when] is [None] where the caller leaves the parameter out. *)
Definition baseUsername (first_name last_name : value) (when : option Z)
  : M string :=
  let* when := match when with Some t => ret t | None => new_Date end in
  let* tz := local_zone in
  let mm := padStart 2 (getMonth tz when + 1) in
  let yy := slice_last2 (pretty (getFullYear tz when)) in
  let* first := string_receiver first_name "first_name" "trim" in
  let f := charAt0 (trim first) in
  let* last := string_receiver last_name "last_name" "trim" in
  let l := remove_spaces (trim last) in
  ret (toLowerCase (f +:+ l +:+ mm +:+ yy)).

(** The receiver of a string method, for the values that have one. *)
Definition receiver_text (v : value) : option string :=
  match js_or v (VStr "") with
  | VStr s => Some s
  | _ => None
  end.

(** The reference date of a call. *)
Definition reference_date (when : option Z) (w : world) : Z :=
  default (clock w) when.

(** [s] is ASCII text: there the case mapping, the white space and the
    characters of JavaScript are the model's. *)
Fixpoint ascii_text (s : string) : bool :=
  match s with
  | EmptyString => true
  | String c s' => ((N_of_ascii c <? 128)%N && ascii_text s')%bool
  end.

(** No character of [s] is white space. *)
Fixpoint spaceless (s : string) : bool :=
  match s with
  | EmptyString => true
  | String c s' => (negb (is_space c) && spaceless s')%bool
  end.

(** The characters of a printed integer. *)
Definition decimal_char (c : ascii) : bool :=
  let n := N_of_ascii c in ((48 <=? n) && (n <=? 57) || (n =? 45))%N%bool.

Fixpoint decimal_text (s : string) : bool :=
  match s with
  | EmptyString => true
  | String c s' => (decimal_char c && decimal_text s')%bool
  end.

(** ** The store, continued *)

(** [from('users').update(patch).<filter>.select()]: the rows as updated. *)
Definition update_select (patch : obj) (f : row_filter)
  : M (response (list obj)) :=
  request (fun w =>
    (ok_response ((fun r => patch ∪ r) <$> selected f w),
     set_table ((fun r => if matches f r then patch ∪ r else r) <$> table w) w)).

(** ** server.js

    The route handlers, each from the parsed request to the one response it
    sends.  The mailer is nodemailer's transport: a message is accepted and
    put in the outbox unless it has no recipient or the environment makes
    the delivery fail; a failed [sendMail] rejects.  Logging is left out. *)

Record mail : Type := Mail
  { mail_from : value; mail_to : value; mail_subject : string; mail_text : string }.

(** [process.env] *)
Record environment : Type := Env
  { EMAIL_USER : value; ADMIN_EMAIL : value; ENV_PORT : value }.

Record server : Type := Server
  { store : world;                      (* what auth.js runs in *)
    outbox : list mail;                 (* the messages accepted so far *)
    mail_faults : list (option string) }. (* the outcome of the coming deliveries *)

Definition Srv (A : Type) : Type := server -> outcome A * server.

Definition retS {A} (a : A) : Srv A := fun s => (Ret a, s).

Definition bindS {A B} (m : Srv A) (f : A -> Srv B) : Srv B := fun s =>
  match m s with
  | (Ret a, s') => f a s'
  | (Throw msg, s') => (Throw msg, s')
  | (Spin, s') => (Spin, s')
  end.

Notation "'let+' x ':=' m 'in' k" := (bindS m (fun x => k))
  (at level 10, x name, m at level 100, k at level 200).

(** [try { m } catch (err) { h }] *)
Definition try_catchS {A} (m : Srv A) (h : string -> Srv A) : Srv A := fun s =>
  match m s with
  | (Throw msg, s') => h msg s'
  | r => r
  end.

(** A call into auth.js or to the store. *)
Definition lift {A} (m : M A) : Srv A := fun s =>
  let (r, w) := m (store s) in (r, Server w (outbox s) (mail_faults s)).

(** [transporter.sendMail(m)] *)
Definition sendMail (m : mail) : Srv unit := fun s =>
  match mail_faults s with
  | Some msg :: fs => (Throw msg, Server (store s) (outbox s) fs)
  | fs =>
      if truthy (mail_to m)
      then (Ret tt, Server (store s) (outbox s ++ [m]) (tail fs))
      else (Throw "No recipients defined", Server (store s) (outbox s) (tail fs))
  end.

(** [process.env.PORT || 3000] *)
Definition PORT (env : environment) : value := js_or (ENV_PORT env) (VNum 3000).

(** The characters [encodeURIComponent] keeps. *)
Definition uri_unreserved (c : ascii) : bool :=
  let n := N_of_ascii c in
  ((65 <=? n) && (n <=? 90) || (97 <=? n) && (n <=? 122) || (48 <=? n) && (n <=? 57)
   || bool_decide (c ∈ ["-"; "_"; "."; "!"; "~"; "*"; "'"; "("; ")"]%char))%N%bool.

Definition hex_digit (n : N) : ascii :=
  default "0"%char (String.get (N.to_nat n) "0123456789ABCDEF").

(** [encodeURIComponent(s)], [s] as its UTF-8 bytes. *)
Fixpoint encodeURIComponent (s : string) : string :=
  match s with
  | EmptyString => EmptyString
  | String c s' =>
      if uri_unreserved c then String c (encodeURIComponent s')
      else String "%" (String (hex_digit (N_of_ascii c / 16))
             (String (hex_digit (N_of_ascii c mod 16)) (encodeURIComponent s')))
  end.

(** [s.includes(sub)] *)
Fixpoint includes (s sub : string) : bool :=
  (startsWith s sub ||
   match s with
   | EmptyString => false
   | String _ s' => includes s' sub
   end)%bool.

Definition nl : string := String (ascii_of_nat 10) EmptyString.

(** What a handler sends. *)
Inductive json : Type :=
  | JValue (v : value)
  | JObject (o : obj)
  | JError (e : pg_error).

Inductive payload : Type :=
  | Json (fields : list (string * json)) (* [res.json({...})] *)
  | Text (s : string).                   (* [res.send('...')] *)

Record http_response : Type := Http { status : Z; body : payload }.

(** [result.error] of a signup result. *)
Definition signup_error (r : signup_result) : option json :=
  match r with
  | SignupError msg => Some (JValue (VStr msg))
  | SignupStoreError e => Some (JError e)
  | SignupMessage _ => None
  end.

(** ToBoolean of such a property. *)
Definition json_truthy (j : option json) : bool :=
  match j with
  | Some (JValue v) => truthy v
  | Some _ => true
  | None => false
  end.

(** The mail to the administrator. *)
Definition approval_request (env : environment) (user : obj) : mail :=
  let email := encodeURIComponent (ToString (get user "email")) in
  let approveLink :=
    "http://localhost:" +:+ ToString (PORT env) +:+ "/api/approve?email=" +:+ email in
  let rejectLink :=
    "http://localhost:" +:+ ToString (PORT env) +:+ "/api/reject?email=" +:+ email in
  Mail (EMAIL_USER env) (ADMIN_EMAIL env) "New User Signup Approval"
    ("A new user signed up:" +:+ nl +:+ nl +:+ "Name: "
       +:+ ToString (get user "first_name") +:+ " " +:+ ToString (get user "last_name")
       +:+ nl +:+ "Email: " +:+ ToString (get user "email") +:+ nl +:+ nl
       +:+ "Approve: " +:+ approveLink +:+ nl +:+ "Reject: " +:+ rejectLink +:+ nl).

(** [app.post('/api/signup', ...)], [user] the request body. *)
Definition signup_route `{BcryptCore} (env : environment) (user : obj)
  : Srv http_response :=
  try_catchS
    (let+ result := lift (signupUser user) in
     if json_truthy (signup_error result)
     then retS (Http 400 (Json [("error", default (JValue VUndef) (signup_error result))]))
     else
       let+ _ := sendMail (approval_request env user) in
       retS (Http 200 (Json [("message",
               JValue (VStr "Signup submitted! Waiting for admin approval."))])))
    (fun _ => retS (Http 500 (Json [("error", JValue (VStr "Unexpected signup error"))]))).

(** [const { username, password } = req.body], ahead of the handler's
    [try]: [req.body] is [None] where the request brought no body that was
    parsed, and destructuring [undefined] throws. *)
Definition destructure_body (body : option obj) : Srv (value * value) :=
  match body with
  | Some body => retS (get body "username", get body "password")
  | None =>
      fun s =>
        (Throw "Cannot destructure property 'username' of 'req.body' as it is undefined.",
         s)
  end.

(** [app.post('/api/login', ...)], [body] is [req.body].  A handler that
    throws sends nothing: the answer is then the framework's. *)
Definition login_route `{BcryptCore} (body : option obj) : Srv http_response :=
  let+ credentials := destructure_body body in
  let username := credentials.1 in
  let password := credentials.2 in
  try_catchS
    (let+ result := lift (loginUserByUsername username password) in
     match result with
     | LoginError msg =>
         if truthy (VStr msg)
         then retS (Http (if includes msg "approval" then 403 else 401)
                      (Json [("error", JValue (VStr msg))]))
         else retS (Http 200 (Json [("user", JValue VUndef)]))
     | LoginUser user => retS (Http 200 (Json [("user", JObject user)]))
     end)
    (fun _ => retS (Http 500 (Json [("error", JValue (VStr "Server error logging in"))]))).

(** The mails to the account's address. *)
Definition approval_notice (env : environment) (email : value) : mail :=
  Mail (EMAIL_USER env) email "Your HornetHive account is approved!"
    "You can now log in at http://127.0.0.1:5500/HornetHiveLogin.html".

Definition rejection_notice (env : environment) (email : value) : mail :=
  Mail (EMAIL_USER env) email "Your HornetHive account was rejected"
    "Sorry, your account was not approved.".

(** [app.get('/api/approve', ...)], [email] is [req.query.email]. *)
Definition approve_route (env : environment) (email : value) : Srv http_response :=
  try_catchS
    (let+ r := lift (update_select {["approved" := VBool true]} (FEq "email" email)) in
     match error r, data r with
     | Some _, _ => retS (Http 500 (Text "Failed to approve user"))
     | None, None | None, Some [] => retS (Http 404 (Text "User not found"))
     | None, Some _ =>
         let+ _ := sendMail (approval_notice env email) in
         retS (Http 200 (Text "User approved and notified!"))
     end)
    (fun _ => retS (Http 500 (Text "Error approving user"))).

(** [app.get('/api/reject', ...)] *)
Definition reject_route (env : environment) (email : value) : Srv http_response :=
  try_catchS
    (let+ _ := lift (update {["approved" := VBool false]} (FEq "email" email)) in
     let+ _ := sendMail (rejection_notice env email) in
     retS (Http 200 (Text "User rejected and notified!")))
    (fun _ => retS (Http 500 (Text "Error rejecting user"))).

(** ** What a handler sees *)

(** Whether the mailer will take [m]. *)
Definition mail_accepted (m : mail) (s : server) : bool :=
  match mail_faults s with
  | Some _ :: _ => false
  | _ => truthy (mail_to m)
  end.

(** The table once [update({approved: flag}).eq('email', email)] is through. *)
Definition flagged (flag : bool) (email : value) (t : list obj) : list obj :=
  (fun r => if matches (FEq "email" email) r
            then <["approved" := VBool flag]> r else r) <$> t.

(** The messages a login can answer with. *)
Definition login_messages : list string :=
  ["No account found"; "Account awaiting approval"; "Incorrect password";
   "data and hash arguments required"; "data and hash must be strings";
   "stored.startsWith is not a function"].

(** The messages a signup can answer with. *)
Definition signup_messages : list string :=
  ["Email already registered"; "data and salt arguments required";
   "data must be a string or Buffer and salt must either be a salt string or a number of rounds"].

(** ** A server and a few more rows to run the handlers on *)

Module Hive.

Definition env : environment :=
  Env (VStr "hive@hive.test") (VStr "queen@hive.test") VUndef.

(** An approved account with a hashed credential (of 'honey', under
    [Demo.toy]). *)
Definition dora : obj :=
  Demo.row [("id", VNum 4); ("email", VStr "dora@hive.test");
            ("username", VStr "dkeeper0124");
            ("password", VStr "$2b$12$......................#honey");
            ("approved", VBool true); ("role", VStr "accountant")].

(** The account of Ann Belle, signed up in November 2023. *)
Definition fay : obj :=
  Demo.row [("id", VNum 5); ("email", VStr "ann@hive.test");
            ("username", VStr "abelle1123"); ("password", VStr "clover");
            ("approved", VBool true)].

(** A candidate who left the password out. *)
Definition erin : obj :=
  Demo.row [("email", VStr "erin@hive.test"); ("username", VStr "ewing0124")].

(** The store answers the first request and refuses the second with [e]. *)
Definition second_fails (e : pg_error) (t : list obj) : world :=
  World t [None; Some e] 100 1701345600000 [] utc.

(** A server whose store and mailer both work. *)
Definition running (t : list obj) : server := Server (Demo.quiet t) [] [].

(** A candidate who names its own role and standing. *)
Definition gwen : obj :=
  Demo.row [("email", VStr "gwen@hive.test"); ("username", VStr "gdrone1123");
            ("password", VStr "pollen"); ("role", VStr "admin");
            ("active", VBool true)].

(** America/New_York between its changes of November 2023 and March 2025:
    five hours behind UTC, and four from 10 March 2024 (7:00 UTC) to
    3 November 2024 (6:00 UTC).  On the local clock the hour from 2:00 that
    the first change skips is read with the offset before it, and the hour
    from 1:00 that the second repeats with the earlier offset. *)
Definition new_york : time_zone :=
  TimeZone
    (fun t => if (1710054000000 <=? t) && (t <? 1730613600000)
              then -14400000 else -18000000)
    (fun t => if (1710039600000 <=? t) && (t <? 1730599200000)
              then -14400000 else -18000000).

(** A store in New York, the clock at 2024-02-15T17:00:00Z, noon there. *)
Definition eastern (t : list obj) : world := World t [] 100 1708016400000 [] new_york.

End Hive.

(** * Properties *)

(** ** Strings *)

Lemma lower_ascii_idem c : lower_ascii (lower_ascii c) = lower_ascii c.
Proof. destruct c as [[] [] [] [] [] [] [] []]; reflexivity. Qed.

Lemma toLowerCase_idem s : toLowerCase (toLowerCase s) = toLowerCase s.
Proof. induction s as [|c s IH]; simpl; [done|]. by rewrite lower_ascii_idem, IH. Qed.

Lemma toLowerCase_app s t :
  toLowerCase (s +:+ t) = toLowerCase s +:+ toLowerCase t.
Proof. induction s as [|c s IH]; simpl; [done|]. by rewrite IH. Qed.

Lemma lower_digit k : lower_ascii (pretty_N_char k) = pretty_N_char k.
Proof. unfold pretty_N_char. by repeat case_match. Qed.

Lemma toLowerCase_pretty_N_go x s :
  toLowerCase s = s → toLowerCase (pretty_N_go x s) = pretty_N_go x s.
Proof.
  revert s. induction (N.lt_wf_0 x) as [x _ IH]; intros s Hs.
  destruct (decide (x = 0%N)) as [->|Hx]; [by rewrite pretty_N_go_0|].
  rewrite pretty_N_go_step by lia.
  apply IH; [apply N.div_lt; lia|].
  simpl. by rewrite lower_digit, Hs.
Qed.

Lemma toLowerCase_pretty_nat (n : nat) : toLowerCase (pretty n) = pretty n.
Proof.
  unfold pretty, pretty_nat, pretty, pretty_N.
  case_decide; [done|]. by apply toLowerCase_pretty_N_go.
Qed.

Lemma toLowerCase_candidate desired n :
  toLowerCase (candidate desired n) = candidate desired n.
Proof.
  unfold candidate.
  by rewrite !toLowerCase_app, toLowerCase_idem, toLowerCase_pretty_nat.
Qed.

Lemma candidate_inj desired : Inj (=) (=) (candidate desired).
Proof.
  intros n m Hnm. unfold candidate in Hnm.
  apply (inj (String.app _)) in Hnm. apply (inj (String.app _)) in Hnm.
  by apply (inj pretty) in Hnm.
Qed.

(** ** Requests *)

Lemma served_table w : table (served w) = table w.
Proof. done. Qed.

Ltac run_request :=
  unfold request, next_fault, served;
  match goal with
  | |- context [faults ?w] => destruct w as [? [|[?|] ?] ? ? ?]
  end; reflexivity.

Lemma select_where_run cols f w :
  select_where cols f w =
    (Ret (match next_fault w with
          | Some e => error_response e
          | None => ok_response (project cols <$> selected f w)
          end), served w).
Proof. unfold select_where. run_request. Qed.

(** ** [ensureUniqueUsername] *)

Section probing.
Context (existing : gset string) (desired : string).

Lemma probe_Some fuel n k :
  probe existing desired fuel n = Some k ->
  (n <= k)%nat ∧ (candidate desired k ∉ existing) ∧
  ∀ m, (n <= m < k)%nat → candidate desired m ∈ existing.
Proof.
  revert n. induction fuel as [|fuel IH]; intros n; simpl; [done|].
  case_decide as Hn.
  - intros (? & ? & Hlow)%IH. split_and!; [lia|done|].
    intros m Hm. destruct (decide (m = n)) as [->|]; [done|].
    apply Hlow. lia.
  - intros [= <-]. split_and!; [lia|done|]. intros m ?; lia.
Qed.

Lemma probe_None fuel n :
  probe existing desired fuel n = None ->
  ∀ m, (n <= m < n + fuel)%nat → candidate desired m ∈ existing.
Proof.
  revert n. induction fuel as [|fuel IH]; intros n; simpl.
  - intros _ m ?; lia.
  - case_decide as Hn; [|done]. intros Hp m Hm.
    destruct (decide (m = n)) as [->|]; [done|].
    apply (IH _ Hp). lia.
Qed.

(** The loop leaves before it has made more tests than there are names. *)
Lemma probe_terminates fuel n :
  (size existing < fuel)%nat -> is_Some (probe existing desired fuel n).
Proof.
  intros Hfuel. destruct (probe _ _ _ _) eqn:Hp; [by eexists|].
  exfalso. pose proof (probe_None _ _ Hp) as Hall.
  assert (candidate desired <$> seq n fuel ⊆+ elements existing) as Hsub.
  { apply NoDup_submseteq.
    - apply (NoDup_fmap_2 _), NoDup_seq.
    - intros x (m & -> & Hm%elem_of_seq)%list_elem_of_fmap.
      apply elem_of_elements, Hall. lia. }
  apply submseteq_length in Hsub.
  rewrite length_fmap, length_seq in Hsub.
  unfold size, set_size in Hfuel. simpl in *. lia.
Qed.
End probing.

Lemma size_list_to_set_le (l : list string) :
  (size (list_to_set l : gset string) <= length l)%nat.
Proof.
  unfold size, set_size. simpl. apply submseteq_length, NoDup_submseteq.
  - apply NoDup_elements.
  - intros x Hx. by apply elem_of_elements, elem_of_list_to_set in Hx.
Qed.

Lemma lowered_names_text rows :
  Forall text_username rows ->
  mapM lowered_username rows = Some (lowered_names rows) ∧
  length (lowered_names rows) = length rows.
Proof.
  intros Hrows. apply mapM_is_Some_2 in Hrows as [names Hnames].
  unfold lowered_names. rewrite Hnames. split; [done|].
  symmetry. by apply length_mapM in Hnames.
Qed.

(** C6 (amended): when the query fails, returns no rows, or the lowercased
    desired name is not in the snapshot, the resolver returns [desired]
    unchanged; otherwise it returns the first of lower(desired)-2,
    lower(desired)-3, ... that is not in the snapshot.  In every case the
    lowercased result is not in the snapshot, and the loop has left after at
    most one test more than the snapshot has rows. *)
Theorem ensureUniqueUsername_resolves fuel desired w :
  (next_fault w = None ->
   Forall text_username (snapshot desired w) ∧
   (length (snapshot desired w) < fuel)%nat) ->
  ∃ name,
    ensureUniqueUsername fuel desired w = (Ret name, served w) ∧
    match next_fault w with
    | Some _ => name = desired
    | None =>
        let names := lowered_names (snapshot desired w) in
        (if decide (toLowerCase desired ∈ names)
         then first_free_suffix (toLowerCase desired) names name
         else name = desired) ∧
        toLowerCase name ∉ names
    end.
Proof.
  intros Hpre. unfold ensureUniqueUsername, bind.
  rewrite select_where_run. fold (snapshot desired w).
  destruct (next_fault w) as [e|]; simpl; [by eexists|].
  destruct Hpre as [Htext Hfuel]; [done|].
  destruct (lowered_names_text _ Htext) as [Hnames Hlen].
  set (names := lowered_names (snapshot desired w)) in *.
  destruct (snapshot desired w) as [|r rows] eqn:Hrows.
  { exists desired. split; [done|]. subst names. unfold lowered_names. simpl.
    split; [done|]. apply not_elem_of_nil. }
  rewrite Hnames. case_decide as Hin.
  - destruct (probe_terminates (list_to_set names) desired fuel 2) as [n Hn].
    { pose proof (size_list_to_set_le names). lia. }
    rewrite Hn. apply probe_Some in Hn as (Hge & Hfree & Hlow).
    exists (candidate desired n). split; [done|].
    rewrite elem_of_list_to_set in Hin, Hfree.
    rewrite decide_True by done. rewrite toLowerCase_candidate.
    split; [|done]. exists n. split_and!; [done|done|by rewrite toLowerCase_candidate|].
    intros m Hm. change (suffixed (toLowerCase desired) m) with (candidate desired m).
    rewrite toLowerCase_candidate.
    by apply (elem_of_list_to_set (C := gset string)), Hlow.
  - exists desired. split; [done|].
    rewrite elem_of_list_to_set in Hin. by rewrite decide_False by done.
Qed.

(** ** The store's answers *)

Lemma single_run cols f w :
  single cols f w =
    (Ret (match next_fault w with
          | Some e => error_response e
          | None =>
              match selected f w with
              | [r] => ok_response (project cols r)
              | _ => error_response PGRST116
              end
          end), served w).
Proof. unfold single, selected. run_request. Qed.

Lemma maybeSingle_run cols f w :
  maybeSingle cols f w =
    (Ret (match next_fault w with
          | Some e => error_response e
          | None =>
              match selected f w with
              | [] => null_response
              | [r] => ok_response (project cols r)
              | _ => error_response PGRST116
              end
          end), served w).
Proof. unfold maybeSingle, selected. run_request. Qed.

Lemma insert_run rows w :
  insert rows w =
    match next_fault w with
    | Some e => (Ret (error_response e), served w)
    | None =>
        (Ret null_response,
         set_next_id (assign_ids (next_id w) rows).2
           (set_table (table w ++ (assign_ids (next_id w) rows).1) (served w)))
    end.
Proof.
  unfold insert, request, next_fault, served.
  destruct w as [t [|[e|] fs] i c en]; simpl; try done;
    by destruct (assign_ids i rows).
Qed.

Lemma update_run patch f w :
  update patch f w =
    match next_fault w with
    | Some e => (Ret (error_response e), served w)
    | None =>
        (Ret null_response,
         set_table ((fun r => if matches f r then patch ∪ r else r) <$> table w)
           (served w))
    end.
Proof. unfold update. run_request. Qed.

Lemma lookup_project cs (r : obj) k :
  k ∈ cs -> get (project (Some cs) r) k = get r k.
Proof.
  intros Hk. unfold get, project. rewrite map_lookup_filter.
  destruct (r !! k) as [v|]; simpl; [|done].
  by rewrite option_guard_True.
Qed.

(** ** [loginUserByUsername] *)

Section login.
Context `{BcryptCore}.

(** What is left of a login once the lookup has answered. *)
Lemma login_lookup username password w :
  loginUserByUsername username password w =
    match next_fault w, selected (FIlike "username" (ToString username)) w with
    | None, [user] =>
        try_catch
          (if negb (truthy (get user "approved"))
           then ret (LoginError "Account awaiting approval")
           else
             match js_or (get user "password") (VStr "") with
             | VStr stored =>
                 let* valid := verify password stored in
                 if negb valid then ret (LoginError "Incorrect password")
                 else
                   let* _ := migrate user password stored in
                   ret (LoginUser (delete "password" user))
             | _ => throw "stored.startsWith is not a function"
             end)
          (fun msg => ret (LoginError msg)) (served w)
    | _, _ => (Ret (LoginError "No account found"), served w)
    end.
Proof.
  unfold loginUserByUsername, try_catch, bind. rewrite single_run.
  destruct (next_fault w); simpl; [done|].
  by destruct (selected _ w) as [|user [|]].
Qed.

(** The approval gate comes before anything that looks at the password. *)
Lemma login_unapproved username password w user :
  next_fault w = None ->
  selected (FIlike "username" (ToString username)) w = [user] ->
  truthy (get user "approved") = false ->
  loginUserByUsername username password w =
    (Ret (LoginError "Account awaiting approval"), served w).
Proof.
  intros Hf Hs Ha. rewrite login_lookup, Hf, Hs.
  unfold try_catch. by rewrite Ha.
Qed.
End login.

Section login_claims.
Context `{BcryptCore}.

Lemma selected_in f w r : selected f w = [r] -> r ∈ table w.
Proof.
  intros Hs. apply list_elem_of_In.
  apply (proj1 (filter_In (matches f) r (table w))).
  fold (selected f w). rewrite Hs. by left.
Qed.

(** C2: an account whose [approved] is false is answered with the
    pending-approval error whatever password is supplied; the stored
    credential is never consulted and the table is left as it was. *)
Theorem login_pending_whatever_password username w user :
  next_fault w = None ->
  selected (FIlike "username" (ToString username)) w = [user] ->
  get user "approved" = VBool false ->
  ∀ password,
    loginUserByUsername username password w =
      (Ret (LoginError "Account awaiting approval"), served w).
Proof.
  intros Hf Hs Ha password. apply (login_unapproved _ _ _ user); [done..|].
  by rewrite Ha.
Qed.

(** C10: whatever error the store reports for the lookup, the login
    answers 'No account found', exactly as it does when no row matches;
    the store's error never reaches the caller. *)
Theorem login_lookup_error_is_no_account username password w e :
  next_fault w = Some e ->
  loginUserByUsername username password w =
    (Ret (LoginError "No account found"), served w) ∧
  ∀ w0, next_fault w0 = None ->
        selected (FIlike "username" (ToString username)) w0 = [] ->
        (loginUserByUsername username password w0).1 =
        (loginUserByUsername username password w).1.
Proof.
  intros Hf. split.
  - by rewrite login_lookup, Hf.
  - intros w0 Hf0 Hs0. by rewrite !login_lookup, Hf, Hf0, Hs0.
Qed.

(** C1: a successful login returns the looked-up record without its
    [password] property and with every other property as stored. *)
Theorem login_success_strips_password username password w user w' :
  loginUserByUsername username password w = (Ret (LoginUser user), w') ->
  ∃ record,
    selected (FIlike "username" (ToString username)) w = [record] ∧
    record ∈ table w ∧
    user !! "password" = None ∧
    ∀ k, k ≠ "password" -> user !! k = record !! k.
Proof.
  rewrite login_lookup.
  destruct (next_fault w); [done|].
  destruct (selected _ w) as [|record [|]] eqn:Hs; [done| |done].
  intros Hrun. exists record. split; [done|].
  split; [by eapply selected_in|].
  assert (user = delete "password" record) as ->.
  { revert Hrun. unfold try_catch, bind, ret, throw.
    destruct (negb (truthy _)); [done|].
    destruct (js_or _ _); try done.
    destruct (verify _ _ _) as [[[]| |] w1]; try done; simpl.
    destruct (migrate _ _ _ _) as [[[]| |] w2]; try done; simpl.
    by intros [= <- <-]. }
  split; [apply lookup_delete_eq|].
  intros k Hk. by apply lookup_delete_ne.
Qed.
End login_claims.

Lemma login_pending_whatever_password_witness :
  Demo.login (VStr "abc01-2") (VStr "comb") (Demo.quiet [Demo.alice; Demo.bob]) =
    (Ret (LoginError "Account awaiting approval"),
     served (Demo.quiet [Demo.alice; Demo.bob])).
Proof.
  apply (login_pending_whatever_password (H := Demo.toy) _ _ Demo.bob);
    reflexivity.
Defined.

Lemma login_lookup_error_is_no_account_witness :
  Demo.login (VStr "abc01") (VStr "wax")
      (Demo.faulty (PgError "fetch failed" "") [Demo.alice]) =
    (Ret (LoginError "No account found"),
     served (Demo.faulty (PgError "fetch failed" "") [Demo.alice])).
Proof.
  apply (login_lookup_error_is_no_account (H := Demo.toy) _ _ _
           (PgError "fetch failed" "")).
  reflexivity.
Defined.

Lemma login_success_strips_password_witness :
  ∃ record,
    selected (FIlike "username" "ABC01") (Demo.quiet [Demo.alice; Demo.bob]) =
      [record] ∧
    record ∈ table (Demo.quiet [Demo.alice; Demo.bob]) ∧
    delete "password" Demo.alice !! "password" = None ∧
    ∀ k, k ≠ "password" -> delete "password" Demo.alice !! k = record !! k.
Proof.
  apply (login_success_strips_password (H := Demo.toy)
           (VStr "ABC01") (VStr "wax") _ _
           (Demo.login (VStr "ABC01") (VStr "wax")
              (Demo.quiet [Demo.alice; Demo.bob])).2).
  vm_compute. reflexivity.
Defined.

(** ** Credentials *)

Section credentials.
Context `{BcryptCore}.

Lemma substring_app_l (s t : string) :
  String.substring 0 (String.length s) (s +:+ t) = s.
Proof.
  induction s as [|c s IH]; simpl.
  - unfold String.append. by destruct t.
  - unfold String.append. fold String.append. simpl. by rewrite IH.
Qed.

Lemma bcrypt_hash_run plaintext w :
  bcrypt_hash (VStr plaintext) SALT_ROUNDS w =
    (Ret (crypt (drawn_salt w) plaintext), salted w).
Proof. reflexivity. Qed.

Lemma isHashed_crypt w plaintext :
  isHashed (crypt (drawn_salt w) plaintext) = true.
Proof. reflexivity. Qed.

Lemma verify_crypt w plaintext w' :
  verify (VStr plaintext) (crypt (drawn_salt w) plaintext) w' = (Ret true, w').
Proof.
  unfold verify. rewrite isHashed_crypt. unfold bcrypt_compare, ret.
  assert (String.substring 0 29 (crypt (drawn_salt w) plaintext) = drawn_salt w) as ->.
  { change 29%nat with (String.length (drawn_salt w)). apply substring_app_l. }
  by rewrite String.eqb_refl.
Qed.

Lemma isHashed_prefix stored :
  isHashed stored = true ↔ ∃ rest, stored = "$2" +:+ rest.
Proof.
  unfold isHashed. split.
  - destruct stored as [|a [|b rest]]; cbn [startsWith]; try done.
    + by rewrite andb_false_r.
    + rewrite andb_true_r. intros [Ha Hb]%andb_prop.
      apply Ascii.eqb_eq in Ha as <-. apply Ascii.eqb_eq in Hb as <-.
      by exists rest.
  - intros [rest ->]. reflexivity.
Qed.

Lemma verify_legacy password stored w :
  isHashed stored = false ->
  verify password stored w = (Ret (bool_decide (password = VStr stored)), w).
Proof.
  intros Hl. unfold verify, ret, strict_eq. rewrite Hl. do 2 f_equal.
  apply bool_decide_ext. split; congruence.
Qed.

Lemma rewritten_update id credential t :
  (fun r => if matches (FEq "id" id) r
            then {["password" := VStr credential]} ∪ r else r) <$> t =
  rewritten id credential t.
Proof.
  unfold rewritten. apply list_fmap_ext. intros _ r _.
  destruct (matches _ r); [|done]. by rewrite insert_union_singleton_l.
Qed.

(** A legacy login with the right plaintext rewrites the credential. *)
Lemma login_migrates username plaintext w user :
  faults w = [] ->
  selected (FIlike "username" (ToString username)) w = [user] ->
  truthy (get user "approved") = true ->
  js_or (get user "password") (VStr "") = VStr plaintext ->
  isHashed plaintext = false ->
  loginUserByUsername username (VStr plaintext) w =
    (Ret (LoginUser (delete "password" user)),
     set_table (rewritten (get user "id")
                  (crypt (drawn_salt w) plaintext) (table w)) (salted w)).
Proof.
  intros Hf Hs Ha Hp Hl. rewrite login_lookup.
  assert (served w = w) as Hw.
  { destruct w as [t fs i c en]. simpl in Hf. by subst fs. }
  assert (next_fault w = None) as Hn by (unfold next_fault; by rewrite Hf).
  assert (next_fault (salted w) = None) as Hn'.
  { unfold next_fault, salted. simpl. by rewrite Hf. }
  assert (served (salted w) = salted w) as Hw'.
  { unfold served, salted. simpl. rewrite Hf. simpl.
    destruct w as [t fs i c en]. simpl in *. by subst fs. }
  rewrite Hn, Hs, Hw, Ha, Hp. cbn [negb].
  unfold try_catch, bind. rewrite verify_legacy by done.
  rewrite bool_decide_true by done. cbn [negb].
  unfold migrate, bind. rewrite Hl. cbn [negb].
  rewrite bcrypt_hash_run, update_run, Hn', Hw', rewritten_update.
  reflexivity.
Qed.
End credentials.

Section migration.
Context `{BcryptCore}.

Lemma filter_fmap_stable {A} (P : A -> bool) (h : A -> A) (l : list A) :
  (∀ x, P (h x) = P x) -> List.filter P (h <$> l) = h <$> List.filter P l.
Proof.
  intros HP. induction l as [|x l IH]; csimpl; [done|].
  rewrite HP. destruct (P x); csimpl; by rewrite IH.
Qed.

Lemma selected_rewritten pat id credential w w' :
  table w' = rewritten id credential (table w) ->
  selected (FIlike "username" pat) w' =
  rewritten id credential (selected (FIlike "username" pat) w).
Proof.
  intros Ht. unfold selected, rewritten. rewrite Ht.
  apply filter_fmap_stable. intros r.
  destruct (matches (FEq "id" id) r); [|done].
  unfold matches. by rewrite lookup_insert_ne.
Qed.

(** Once rewritten, the credential opens the account through the hashed
    branch, and nothing is written again. *)
Lemma login_after_migration username plaintext w w' user salt :
  faults w' = [] ->
  table w' = rewritten (get user "id") (crypt (drawn_salt salt) plaintext) (table w) ->
  selected (FIlike "username" (ToString username)) w = [user] ->
  truthy (get user "approved") = true ->
  matches (FEq "id" (get user "id")) user = true ->
  loginUserByUsername username (VStr plaintext) w' =
    (Ret (LoginUser (delete "password" user)), w').
Proof.
  intros Hf Ht Hs Ha Hid. rewrite login_lookup.
  assert (served w' = w') as ->.
  { destruct w' as [t fs i c en]. simpl in Hf. by subst fs. }
  assert (next_fault w' = None) as -> by (unfold next_fault; by rewrite Hf).
  rewrite (selected_rewritten _ _ _ w w' Ht), Hs.
  unfold rewritten. cbn [fmap list_fmap]. rewrite Hid.
  set (credential := crypt (drawn_salt salt) plaintext).
  assert (get (<["password" := VStr credential]> user) "approved"
          = get user "approved") as ->.
  { unfold get. by rewrite lookup_insert_ne. }
  assert (js_or (get (<["password" := VStr credential]> user) "password")
            (VStr "") = VStr credential) as ->.
  { unfold get. by rewrite lookup_insert_eq. }
  rewrite Ha. cbn [negb]. unfold try_catch, bind.
  subst credential. rewrite verify_crypt. cbn [negb].
  unfold migrate. rewrite isHashed_crypt. cbn [negb].
  unfold ret. by rewrite delete_insert_eq.
Qed.

(** C5: a stored credential counts as hashed exactly when it starts with
    [$2]; a legacy credential verifies exactly against an equal plaintext
    and a hashed one through [bcrypt.compare]; whatever the hasher
    produces counts as hashed and verifies against its own plaintext; and
    the credential a legacy login writes back is of that kind, so that
    the next login goes through the hashed branch. *)
Theorem credential_classification_and_migration :
  (∀ stored, isHashed stored = true ↔ ∃ rest, stored = "$2" +:+ rest) ∧
  (∀ password stored w,
     isHashed stored = false ->
     verify password stored w = (Ret (bool_decide (password = VStr stored)), w)) ∧
  (∀ password stored w,
     isHashed stored = true ->
     verify password stored w = bcrypt_compare password stored w) ∧
  (∀ plaintext w,
     ∃ credential,
       bcrypt_hash (VStr plaintext) SALT_ROUNDS w = (Ret credential, salted w) ∧
       isHashed credential = true ∧
       ∀ w', verify (VStr plaintext) credential w' = (Ret true, w')) ∧
  (∀ username plaintext w user,
     faults w = [] ->
     selected (FIlike "username" (ToString username)) w = [user] ->
     truthy (get user "approved") = true ->
     js_or (get user "password") (VStr "") = VStr plaintext ->
     isHashed plaintext = false ->
     matches (FEq "id" (get user "id")) user = true ->
     ∃ credential w',
       loginUserByUsername username (VStr plaintext) w =
         (Ret (LoginUser (delete "password" user)), w') ∧
       table w' = rewritten (get user "id") credential (table w) ∧
       <["password" := VStr credential]> user ∈ table w' ∧
       isHashed credential = true ∧
       loginUserByUsername username (VStr plaintext) w' =
         (Ret (LoginUser (delete "password" user)), w')).
Proof.
  split_and!.
  - apply isHashed_prefix.
  - apply verify_legacy.
  - intros password stored w Hh. unfold verify. by rewrite Hh.
  - intros plaintext w. exists (crypt (drawn_salt w) plaintext).
    split_and!; [apply bcrypt_hash_run|apply isHashed_crypt|].
    intros w'. apply verify_crypt.
  - intros username plaintext w user Hf Hs Ha Hp Hl Hid.
    exists (crypt (drawn_salt w) plaintext). eexists.
    split; [by apply login_migrates|]. split_and!; [done| |apply isHashed_crypt|].
    + cbn [table set_table]. unfold rewritten.
      apply list_elem_of_fmap. exists user. rewrite Hid. split; [done|].
      change (table (salted w)) with (table w). by eapply selected_in.
    + by apply (login_after_migration _ _ w _ user w).
Qed.
End migration.

(** ** [signupUser] *)

Section signup.
Context `{BcryptCore}.

Lemma signup_lookup user w :
  signupUser user w =
    match next_fault w, selected (FEq "email" (get user "email")) w with
    | None, [_] => (Ret (SignupError "Email already registered"), served w)
    | _, _ => signup_rest user (served w)
    end.
Proof.
  unfold signupUser, signup_rest, try_catch, bind. rewrite maybeSingle_run.
  destruct (next_fault w); cbn [data error_response]; [done|].
  by destruct (selected _ w) as [|r [|]].
Qed.

Lemma signup_rest_text user plaintext w :
  get user "password" = VStr plaintext ->
  signup_rest user w =
    match next_fault w with
    | Some e => (Ret (SignupStoreError e), served (salted w))
    | None =>
        (Ret (SignupMessage "Signup successful, awaiting approval"),
         set_next_id (match user !! "id" with
                      | Some _ => next_id w
                      | None => next_id w + 1
                      end)
           (set_table (table w ++ [stored_record user plaintext w])
              (served (salted w))))
    end.
Proof.
  intros Hp. unfold signup_rest, try_catch, bind. rewrite Hp.
  rewrite bcrypt_hash_run. unfold new_Date, local_zone. rewrite insert_run.
  change (next_fault (salted w)) with (next_fault w).
  destruct (next_fault w); [done|].
  unfold stored_record, record_at, signup_record, ret.
  cbn [assign_ids error null_response].
  rewrite !lookup_insert_ne by done.
  by destruct (user !! "id").
Qed.

Lemma signup_rest_no_text user w :
  (∀ plaintext, get user "password" ≠ VStr plaintext) ->
  ∃ msg, signup_rest user w = (Ret (SignupError msg), w).
Proof.
  intros Hp. unfold signup_rest, try_catch, bind, bcrypt_hash, throw, ret.
  destruct (get user "password"); try by eexists.
  by destruct (Hp s).
Qed.
End signup.

Section signup_claims.
Context `{BcryptCore}.

Lemma stored_record_lookup user plaintext w k :
  k ≠ "id" -> stored_record user plaintext w !! k = record_at user plaintext w !! k.
Proof.
  intros Hk. unfold stored_record. destruct (user !! "id"); [done|].
  by rewrite lookup_insert_ne.
Qed.

(** X22: an existing record with the candidate's email, found by a lookup
    that succeeds, stops the signup before anything is written. *)
Lemma signup_duplicate_rejected user w r :
  next_fault w = None ->
  selected (FEq "email" (get user "email")) w = [r] ->
  signupUser user w = (Ret (SignupError "Email already registered"), served w).
Proof. intros Hf Hs. by rewrite signup_lookup, Hf, Hs. Qed.

(** No record with that email and a store that answers: one insert. *)
Lemma signup_happy_path user plaintext w :
  faults w = [] ->
  selected (FEq "email" (get user "email")) w = [] ->
  get user "password" = VStr plaintext ->
  (signupUser user w).1 = Ret (SignupMessage "Signup successful, awaiting approval") ∧
  table (signupUser user w).2 = table w ++ [stored_record user plaintext w].
Proof.
  intros Hf Hs Hp. rewrite signup_lookup, Hs.
  assert (next_fault w = None) as -> by (unfold next_fault; by rewrite Hf).
  rewrite (signup_rest_text _ plaintext) by done.
  assert (next_fault (served w) = None) as ->.
  { unfold next_fault, served. simpl. by rewrite Hf. }
  done.
Qed.

(** Where the existence check goes wrong: when the lookup answers an error
    (it was not served, or several rows match) its [data] is null, and the
    signup goes on to insert. *)
Lemma signup_overlooks_lookup_error user plaintext w :
  is_Some (next_fault w) ∨
    (2 <= length (selected (FEq "email" (get user "email")) w))%nat ->
  next_fault (served w) = None ->
  get user "password" = VStr plaintext ->
  (signupUser user w).1 = Ret (SignupMessage "Signup successful, awaiting approval") ∧
  table (signupUser user w).2 = table w ++ [stored_record user plaintext (served w)].
Proof.
  intros Hlookup Hf Hp.
  assert (signupUser user w = signup_rest user (served w)) as ->.
  { rewrite signup_lookup. destruct Hlookup as [[e ->]|Hlen]; [done|].
    destruct (next_fault w); [done|].
    destruct (selected _ w) as [|r [|]]; simpl in Hlen; try done; lia. }
  rewrite (signup_rest_text _ plaintext) by done. by rewrite Hf.
Qed.

(** C4: whatever the candidate object carries, a signup changes the table
    only by adding one record, and it adds one exactly when it answers with
    its success message.  That record has [approved] false, the hasher's
    credential (not the candidate's [password]) as its [password], and the
    workflow's two timestamps, whatever the candidate supplied under those
    four names.  There are such signups: with a text password, an email
    that no record has and a store that answers, the signup succeeds. *)
Theorem signup_record_overrides user w :
  ((signupUser user w).1 ≠ Ret (SignupMessage "Signup successful, awaiting approval") ∧
   table (signupUser user w).2 = table w
   ∨
   (signupUser user w).1 = Ret (SignupMessage "Signup successful, awaiting approval") ∧
   ∃ plaintext record,
     get user "password" = VStr plaintext ∧
     table (signupUser user w).2 = table w ++ [record] ∧
     record !! "approved" = Some (VBool false) ∧
     record !! "password" = Some (VStr (crypt (drawn_salt w) plaintext)) ∧
     isHashed (crypt (drawn_salt w) plaintext) = true ∧
     record !! "password_fresh" = Some (VStr (toISOString (clock w))) ∧
     record !! "password_expire" =
       Some (VStr (toISOString
                     (setMonth (zone w) (clock w) (getMonth (zone w) (clock w) + 3))))) ∧
  (∀ plaintext,
     get user "password" = VStr plaintext ->
     faults w = [] ->
     selected (FEq "email" (get user "email")) w = [] ->
     (signupUser user w).1 = Ret (SignupMessage "Signup successful, awaiting approval")).
Proof.
  split; [|intros plaintext Hp Hf Hs;
           by destruct (signup_happy_path user plaintext w Hf Hs Hp)].
  rewrite signup_lookup.
  assert (∀ w1, table w1 = table w -> drawn_salt w1 = drawn_salt w ->
                clock w1 = clock w -> zone w1 = zone w ->
            (signup_rest user w1).1
              ≠ Ret (SignupMessage "Signup successful, awaiting approval") ∧
            table (signup_rest user w1).2 = table w
            ∨
            (signup_rest user w1).1
              = Ret (SignupMessage "Signup successful, awaiting approval") ∧
            ∃ plaintext record,
              get user "password" = VStr plaintext ∧
              table (signup_rest user w1).2 = table w ++ [record] ∧
              record !! "approved" = Some (VBool false) ∧
              record !! "password" = Some (VStr (crypt (drawn_salt w) plaintext)) ∧
              isHashed (crypt (drawn_salt w) plaintext) = true ∧
              record !! "password_fresh" = Some (VStr (toISOString (clock w))) ∧
              record !! "password_expire" =
                Some (VStr (toISOString
                              (setMonth (zone w) (clock w)
                                 (getMonth (zone w) (clock w) + 3))))) as Hrest.
  { intros w1 Ht Hsalt Hclock Hzone.
    destruct (get user "password") as [| | | |plaintext] eqn:Hp.
    1-4: left; destruct (signup_rest_no_text user w1) as [msg ->];
         [rewrite Hp; congruence|done].
    rewrite (signup_rest_text _ plaintext) by done.
    destruct (next_fault w1); [by left|]. right. split; [done|].
    exists plaintext, (stored_record user plaintext w1).
    split; [done|]. split; [cbn; by rewrite Ht|].
    rewrite !stored_record_lookup by done.
    unfold record_at, signup_record. rewrite Hsalt, Hclock, Hzone.
    split_and!.
    - rewrite !lookup_insert_ne by done. by rewrite lookup_insert_eq.
    - rewrite !lookup_insert_ne by done. by rewrite lookup_insert_eq.
    - apply isHashed_crypt.
    - rewrite lookup_insert_ne by done. by rewrite lookup_insert_eq.
    - by rewrite lookup_insert_eq. }
  destruct (next_fault w); [by apply Hrest|].
  destruct (selected _ w) as [|r [|]]; [by apply Hrest|by left|by apply Hrest].
Qed.
End signup_claims.

(** ** [getRole] and [isActive] *)

(** C9 (amended): [getRole] and [isActive] never throw.  When the store
    reports an error they return its message verbatim if that message is
    not empty, and the fixed not-found message otherwise; a missing email
    (or one that several rows share) is such an error, reported by the
    single-row query itself.  When exactly one row exists and the query
    succeeds they return the requested column of that row. *)
Theorem account_queries_answer email w :
  (∃ res,
     getRole email w = (Ret res, served w) ∧
     match next_fault w, selected (FEq "email" email) w with
     | Some e, _ =>
         res = RoleError (if decide (message e = "")
                          then VStr "Role not found" else VStr (message e))
     | None, [record] => res = RoleOk (get record "role")
     | None, _ => res = RoleError (VStr (message PGRST116))
     end) ∧
  (∃ res,
     isActive email w = (Ret res, served w) ∧
     match next_fault w, selected (FEq "email" email) w with
     | Some e, _ =>
         res = ActiveError (if decide (message e = "")
                            then VStr "User not found" else VStr (message e))
     | None, [record] => res = ActiveOk (get record "active")
     | None, _ => res = ActiveError (VStr (message PGRST116))
     end).
Proof.
  assert (∀ e fallback,
            js_or (optional_message (Some e)) (VStr fallback) =
            if decide (message e = "") then VStr fallback else VStr (message e))
    as Hmsg.
  { intros e fallback. unfold js_or, optional_message, truthy.
    case_decide as He.
    - by rewrite He.
    - apply String.eqb_neq in He. by rewrite He. }
  split.
  - unfold getRole, bind. rewrite single_run.
    destruct (next_fault w) as [e|]; cbn [error data error_response].
    { eexists. split; [done|]. by rewrite Hmsg. }
    destruct (selected _ w) as [|record [|]];
      cbn [error data error_response ok_response]; eexists; (split; [done|]);
      try done.
    by rewrite lookup_project by set_solver.
  - unfold isActive, bind. rewrite single_run.
    destruct (next_fault w) as [e|]; cbn [error data error_response].
    { eexists. split; [done|]. by rewrite Hmsg. }
    destruct (selected _ w) as [|record [|]];
      cbn [error data error_response ok_response]; eexists; (split; [done|]);
      try done.
    by rewrite lookup_project by set_solver.
Qed.

(** C9 as stated fails, twice.  A store error whose message is empty is
    answered with 'Role not found' (and 'User not found'), not with that
    message; and when two rows carry the email, a row exists and yet the
    answer is the single-row query's error, not the column. *)
Lemma account_queries_counterexample :
  (next_fault (Demo.faulty (PgError "" "502") [Demo.alice]) = Some (PgError "" "502") ∧
   (getRole (VStr "alice@hive.test") (Demo.faulty (PgError "" "502") [Demo.alice])).1
     = Ret (RoleError (VStr "Role not found")) ∧
   (isActive (VStr "alice@hive.test") (Demo.faulty (PgError "" "502") [Demo.alice])).1
     = Ret (ActiveError (VStr "User not found")) ∧
   ¬ (∀ email w e,
        next_fault w = Some e ->
        (getRole email w).1 = Ret (RoleError (VStr (message e))) ∧
        (isActive email w).1 = Ret (ActiveError (VStr (message e))))) ∧
  (selected (FEq "email" (VStr "alice@hive.test"))
     (Demo.quiet [Demo.alice; Demo.alice2]) = [Demo.alice; Demo.alice2] ∧
   (getRole (VStr "alice@hive.test") (Demo.quiet [Demo.alice; Demo.alice2])).1
     = Ret (RoleError (VStr "JSON object requested, multiple (or no) rows returned")) ∧
   (isActive (VStr "alice@hive.test") (Demo.quiet [Demo.alice; Demo.alice2])).1
     = Ret (ActiveError (VStr "JSON object requested, multiple (or no) rows returned"))).
Proof.
  split; split_and!; try (vm_compute; reflexivity).
  intros Hclaim.
  destruct (Hclaim (VStr "alice@hive.test")
              (Demo.faulty (PgError "" "502") [Demo.alice])
              (PgError "" "502") eq_refl) as [Hrole _].
  vm_compute in Hrole. discriminate Hrole.
Qed.

(** ** Runs *)

(** The resolver on the three snapshots of the specification. *)
Example resolve_taken :
  (ensureUniqueUsername 2 "abc01" (Demo.quiet [Demo.alice])).1 = Ret "abc01-2".
Proof. vm_compute. reflexivity. Qed.

Example resolve_taken_twice :
  (ensureUniqueUsername 3 "abc01" (Demo.quiet [Demo.alice; Demo.bob])).1
    = Ret "abc01-3".
Proof. vm_compute. reflexivity. Qed.

Example resolve_free :
  (ensureUniqueUsername 1 "abc01" (Demo.quiet [])).1 = Ret "abc01".
Proof. vm_compute. reflexivity. Qed.

(** A candidate that tries to approve itself is stored unapproved, with a
    credential instead of its password and the workflow's timestamp. *)
Example signup_cannot_approve_itself :
  get Demo.carol "approved" = VBool true ∧
  ∃ record,
    table (Demo.signup Demo.carol (Demo.quiet [Demo.alice])).2
      = [Demo.alice; record] ∧
    get record "approved" = VBool false ∧
    get record "password" = VStr "$2b$12$......................#nectar" ∧
    get record "password_fresh" = VStr "2023-11-30T12:00:00.000Z" ∧
    get record "role" = VStr "admin".
Proof.
  split; [reflexivity|].
  exists (stored_record (H := Demo.toy) Demo.carol "nectar" (Demo.quiet [Demo.alice])).
  split_and!; vm_compute; reflexivity.
Qed.

(** The same signup, through the invariant: the candidate says it is
    approved and names its own [password_fresh]; the record that is added
    has the workflow's values. *)
Lemma signup_record_overrides_witness :
  get Demo.carol "approved" = VBool true ∧
  get Demo.carol "password_fresh" = VStr "never" ∧
  (Demo.signup Demo.carol (Demo.quiet [Demo.alice])).1
    = Ret (SignupMessage "Signup successful, awaiting approval") ∧
  ∃ record,
    table (Demo.signup Demo.carol (Demo.quiet [Demo.alice])).2
      = [Demo.alice; record] ∧
    record !! "approved" = Some (VBool false) ∧
    record !! "password" = Some (VStr "$2b$12$......................#nectar") ∧
    record !! "password_fresh" = Some (VStr "2023-11-30T12:00:00.000Z") ∧
    record !! "password_expire" = Some (VStr "2024-03-01T12:00:00.000Z").
Proof.
  destruct (signup_record_overrides (H := Demo.toy) Demo.carol
              (Demo.quiet [Demo.alice])) as [Hall Hhappy].
  pose proof (Hhappy "nectar" eq_refl eq_refl eq_refl) as Hok.
  destruct Hall as [[Hno _]|[_ (plaintext & record & Hp & Ht & Ha & Hpw & _ & Hfresh & Hexp)]];
    [by destruct Hno|].
  vm_compute in Hp. injection Hp as <-.
  split_and!; [reflexivity|reflexivity|exact Hok|].
  exists record. split_and!; [exact Ht|exact Ha| | |].
  - rewrite Hpw. vm_compute. reflexivity.
  - rewrite Hfresh. vm_compute. reflexivity.
  - rewrite Hexp. vm_compute. reflexivity.
Defined.

Example toISOString_epoch : toISOString 0 = "1970-01-01T00:00:00.000Z".
Proof. vm_compute. reflexivity. Qed.

(** The month ends that run over, and two that do not (noon, UTC). *)
Example setMonth_month_ends :
  let noon y m d := MakeDate (days_from_civil y m d) 43200000 in
  let expiry t := toISOString (setMonth utc t (getMonth utc t + 3)) in
  expiry (noon 2023 0 31) = "2023-05-01T12:00:00.000Z" ∧
  expiry (noon 2023 2 31) = "2023-07-01T12:00:00.000Z" ∧
  expiry (noon 2023 7 31) = "2023-12-01T12:00:00.000Z" ∧
  expiry (noon 2022 10 29) = "2023-03-01T12:00:00.000Z" ∧
  expiry (noon 2023 10 30) = "2024-03-01T12:00:00.000Z" ∧
  expiry (noon 2023 10 29) = "2024-02-29T12:00:00.000Z" ∧
  expiry (noon 2023 4 31) = "2023-08-31T12:00:00.000Z".
Proof. cbv zeta. split_and!; vm_compute; reflexivity. Qed.

Example setMonth_leap_day :
  toISOString (setMonth utc 1709208000000 (getMonth utc 1709208000000 + 3))
    = "2024-05-29T12:00:00.000Z".
Proof. vm_compute. reflexivity. Qed.

(** C6 as stated fails: for a desired name with an upper-case letter the
    resolver returns the suffixed lower-cased name, which is none of
    desired-2, desired-3, ... *)
Lemma ensureUniqueUsername_lowercases_counterexample :
  toLowerCase "Abc01" ∈ lowered_names (snapshot "Abc01" (Demo.quiet [Demo.alice])) ∧
  ensureUniqueUsername 2 "Abc01" (Demo.quiet [Demo.alice]) =
    (Ret "abc01-2", served (Demo.quiet [Demo.alice])) ∧
  ¬ first_free_suffix "Abc01"
      (lowered_names (snapshot "Abc01" (Demo.quiet [Demo.alice]))) "abc01-2".
Proof.
  split_and!.
  - vm_compute. by left.
  - vm_compute. reflexivity.
  - intros (n & _ & Hname & _). unfold suffixed in Hname.
    cbv [String.append] in Hname. discriminate Hname.
Qed.

Lemma ensureUniqueUsername_resolves_witness :
  ∃ name,
    ensureUniqueUsername 3 "abc01" (Demo.quiet [Demo.alice; Demo.bob]) =
      (Ret name, served (Demo.quiet [Demo.alice; Demo.bob])) ∧
    match next_fault (Demo.quiet [Demo.alice; Demo.bob]) with
    | Some _ => name = "abc01"
    | None =>
        let names :=
          lowered_names (snapshot "abc01" (Demo.quiet [Demo.alice; Demo.bob])) in
        (if decide (toLowerCase "abc01" ∈ names)
         then first_free_suffix (toLowerCase "abc01") names name
         else name = "abc01") ∧
        toLowerCase name ∉ names
    end.
Proof.
  apply ensureUniqueUsername_resolves. intros _. split.
  - apply (bool_decide_unpack _). vm_compute. exact I.
  - vm_compute. lia.
Defined.

Lemma credential_classification_and_migration_witness :
  ∃ credential w',
    Demo.login (VStr "abc01") (VStr "wax") (Demo.quiet [Demo.alice; Demo.bob]) =
      (Ret (LoginUser (delete "password" Demo.alice)), w') ∧
    table w' = rewritten (get Demo.alice "id") credential
                 (table (Demo.quiet [Demo.alice; Demo.bob])) ∧
    <["password" := VStr credential]> Demo.alice ∈ table w' ∧
    isHashed credential = true ∧
    Demo.login (VStr "abc01") (VStr "wax") w' =
      (Ret (LoginUser (delete "password" Demo.alice)), w').
Proof.
  apply (proj2 (proj2 (proj2 (proj2
           (credential_classification_and_migration (H := Demo.toy)))))
           (VStr "abc01") "wax" (Demo.quiet [Demo.alice; Demo.bob]) Demo.alice);
    reflexivity.
Defined.

(** ** Patterns *)

Lemma like_plain p s : plain p = true -> like p s = String.eqb p s.
Proof.
  revert s. induction p as [|c p IH]; intros s; [by destruct s|].
  cbn [plain]. intros [Hc Hp]%andb_prop. apply negb_true_iff in Hc.
  unfold wildcard in Hc. apply orb_false_elim in Hc as [Hc Hbs].
  apply orb_false_elim in Hc as [Hc Hus]. apply orb_false_elim in Hc as [Hpc Hst].
  cbn [like]. rewrite Hpc, Hst, Hus, Hbs. cbn [orb].
  destruct s as [|d s]; [done|]. cbn [String.eqb]. rewrite IH by done.
  by destruct (Ascii.eqb c d).
Qed.

Lemma wildcard_lower c : wildcard (lower_ascii c) = wildcard c.
Proof. destruct c as [[] [] [] [] [] [] [] []]; reflexivity. Qed.

Lemma plain_lower p : plain (toLowerCase p) = plain p.
Proof.
  induction p as [|c p IH]; [done|]. cbn [toLowerCase plain].
  by rewrite wildcard_lower, IH.
Qed.

(** Without wildcards in the input, the lookup is the match up to case. *)
Lemma ilike_plain p s : plain p = true -> ilike p s = same_username p s.
Proof.
  intros Hp. unfold ilike, same_username. apply like_plain.
  by rewrite plain_lower.
Qed.

(** X21: no match and several matches both end in 'No account found'. *)
Lemma login_not_single `{BcryptCore} username password w :
  length (selected (FIlike "username" (ToString username)) w) ≠ 1%nat ->
  loginUserByUsername username password w =
    (Ret (LoginError "No account found"), served w).
Proof.
  intros Hlen. rewrite login_lookup. destruct (next_fault w); [done|].
  by destruct (selected _ w) as [|r [|]].
Qed.

(** C8 at a failing input: [_] in the username is read as a wildcard, so
    the lookup selects a record whose username differs from the input, and
    the login goes through. *)
Theorem login_username_is_a_pattern :
  same_username "a_c01" "abc01" = false ∧
  selected (FIlike "username" (ToString (VStr "a_c01")))
    (Demo.quiet [Demo.alice; Demo.bob]) = [Demo.alice] ∧
  (Demo.login (VStr "a_c01") (VStr "wax") (Demo.quiet [Demo.alice; Demo.bob])).1
    = Ret (LoginUser (delete "password" Demo.alice)).
Proof. split_and!; vm_compute; reflexivity. Qed.

(** C3 at two failing inputs: with two records under the email the
    existence check answers an error, with one record it may fail to be
    served; either way its [data] is null and the signup inserts. *)
Theorem signup_inserts_beside_existing_email :
  (selected (FEq "email" (get Demo.mallory "email"))
     (Demo.quiet [Demo.alice; Demo.alice2]) = [Demo.alice; Demo.alice2] ∧
   (Demo.signup Demo.mallory (Demo.quiet [Demo.alice; Demo.alice2])).1
     = Ret (SignupMessage "Signup successful, awaiting approval") ∧
   length (table (Demo.signup Demo.mallory
                    (Demo.quiet [Demo.alice; Demo.alice2])).2) = 3%nat) ∧
  (selected (FEq "email" (get Demo.mallory "email"))
     (Demo.faulty (PgError "fetch failed" "") [Demo.alice]) = [Demo.alice] ∧
   (Demo.signup Demo.mallory (Demo.faulty (PgError "fetch failed" "") [Demo.alice])).1
     = Ret (SignupMessage "Signup successful, awaiting approval") ∧
   length (table (Demo.signup Demo.mallory
                    (Demo.faulty (PgError "fetch failed" "") [Demo.alice])).2)
     = 2%nat).
Proof. split_and!; vm_compute; reflexivity. Qed.

(** C7 at a failing input: a signup on 30 November 2023 is given an expiry
    of 1 March 2024, in the fourth month after, not the third. *)
Theorem signup_expiry_month_end :
  toISOString (clock (Demo.quiet [])) = "2023-11-30T12:00:00.000Z" ∧
  (∃ record,
     table (Demo.signup Demo.carol (Demo.quiet [])).2 = [record] ∧
     record !! "password_fresh" = Some (VStr "2023-11-30T12:00:00.000Z") ∧
     record !! "password_expire" = Some (VStr "2024-03-01T12:00:00.000Z")) ∧
  month_index (setMonth (zone (Demo.quiet [])) (clock (Demo.quiet []))
                 (getMonth (zone (Demo.quiet [])) (clock (Demo.quiet [])) + 3))
    = month_index (clock (Demo.quiet [])) + 4.
Proof.
  split_and!; [vm_compute; reflexivity| |vm_compute; reflexivity].
  exists (stored_record (H := Demo.toy) Demo.carol "nectar" (Demo.quiet [])).
  split_and!; vm_compute; reflexivity.
Qed.

(** ** Dates *)

Lemma year_of_era_back yoe doy :
  0 <= yoe <= 399 -> 0 <= doy <= 364 ->
  let doe := yoe * 365 + yoe / 4 - yoe / 100 + doy in
  0 <= doe < 146097 ∧
  (doe - doe / 1460 + doe / 36524 - doe / 146096) / 365 = yoe.
Proof. intros Hy Hd doe. subst doe. Z.div_mod_to_equations; lia. Qed.

Lemma month_day_back mp d :
  0 <= mp <= 11 -> 1 <= d <= 28 ->
  let doy := (153 * mp + 2) / 5 + d - 1 in
  0 <= doy <= 364 ∧ (5 * doy + 2) / 153 = mp ∧
  doy - (153 * mp + 2) / 5 + 1 = d.
Proof. intros Hy Hd doy. subst doy. Z.div_mod_to_equations; lia. Qed.

(** Up to the 28th, the day number of a civil date reads back as that date. *)
Lemma civil_from_days_from_civil y m d :
  0 <= m <= 11 -> 1 <= d <= 28 ->
  civil_from_days (days_from_civil y m d) = (y, m, d).
Proof.
  intros Hm Hd. unfold days_from_civil, civil_from_days.
  set (y' := if m <? 2 then y - 1 else y).
  set (mp := if m <? 2 then m + 10 else m - 2).
  assert (0 <= mp <= 11) as Hmp by (subst mp; case_match; lia).
  assert (0 <= y' mod 400 <= 399) as Hyoe.
  { pose proof (Z.mod_pos_bound y' 400). lia. }
  destruct (month_day_back mp d Hmp Hd) as (Hdoy & Hmp' & Hd').
  destruct (year_of_era_back (y' mod 400) _ Hyoe Hdoy) as (Hdoe & Hyoe').
  set (doy := (153 * mp + 2) / 5 + d - 1) in *.
  set (doe := y' mod 400 * 365 + y' mod 400 / 4 - y' mod 400 / 100 + doy) in *.
  replace (y' / 400 * 146097 + doe - 719468 + 719468)
    with (doe + y' / 400 * 146097) by lia.
  rewrite Z.mod_add, Z.div_add by lia.
  rewrite (Z.mod_small doe 146097), (Z.div_small doe 146097) by exact Hdoe.
  rewrite Z.add_0_l, Hyoe'.
  replace (doe - (365 * (y' mod 400) + y' mod 400 / 4 - y' mod 400 / 100))
    with doy by (subst doe; lia).
  rewrite Hmp', Hd'.
  assert ((if mp <? 10 then mp + 2 else mp - 10) = m) as ->.
  { subst mp. repeat case_match; lia. }
  assert (y' mod 400 + y' / 400 * 400 = y') as ->.
  { pose proof (Z.div_mod y' 400). lia. }
  subst y'. by destruct (m <? 2); f_equal; [f_equal; lia|..].
Qed.

(** The day of the month is never below 1. *)
Lemma DateFromTime_pos t : 1 <= DateFromTime t.
Proof.
  unfold DateFromTime, civil_from_days. cbn [snd].
  Z.div_mod_to_equations; lia.
Qed.

Lemma days_from_civil_day y m d :
  days_from_civil y m 1 + d - 1 = days_from_civil y m d.
Proof. unfold days_from_civil. lia. Qed.

Lemma fields_of_civil x y m d :
  civil_from_days (Day x) = (y, m, d) ->
  YearFromTime x = y ∧ MonthFromTime x = m ∧ DateFromTime x = d.
Proof. unfold YearFromTime, MonthFromTime, DateFromTime. by intros ->. Qed.

Lemma MakeDate_parts day time :
  0 <= time < msPerDay ->
  Day (MakeDate day time) = day ∧ TimeWithinDay (MakeDate day time) = time.
Proof.
  unfold Day, TimeWithinDay, MakeDate, msPerDay. intros Htime.
  Z.div_mod_to_equations. lia.
Qed.

(** Up to the 28th, setting the month three months on keeps the day of the
    month and the time of day. *)
Lemma with_month_three_months t :
  DateFromTime t <= 28 ->
  month_index (with_month t (MonthFromTime t + 3)) = month_index t + 3 ∧
  DateFromTime (with_month t (MonthFromTime t + 3)) = DateFromTime t ∧
  TimeWithinDay (with_month t (MonthFromTime t + 3)) = TimeWithinDay t.
Proof.
  intros Hd. pose proof (DateFromTime_pos t) as Hd1.
  unfold with_month, MakeDay. rewrite days_from_civil_day.
  assert (0 <= TimeWithinDay t < msPerDay) as Htime.
  { unfold TimeWithinDay, msPerDay. apply Z.mod_pos_bound. lia. }
  destruct (MakeDate_parts
              (days_from_civil (YearFromTime t + (MonthFromTime t + 3) / 12)
                 ((MonthFromTime t + 3) mod 12) (DateFromTime t))
              (TimeWithinDay t) Htime) as [Hday Htwd].
  assert (0 <= (MonthFromTime t + 3) mod 12 <= 11) as Hmn.
  { pose proof (Z.mod_pos_bound (MonthFromTime t + 3) 12). lia. }
  pose proof (civil_from_days_from_civil
                (YearFromTime t + (MonthFromTime t + 3) / 12)
                ((MonthFromTime t + 3) mod 12) (DateFromTime t) Hmn
                (conj Hd1 Hd)) as Hcivil.
  rewrite <- Hday in Hcivil.
  apply fields_of_civil in Hcivil as (Hy & Hm & Hdate).
  split_and!; [|done..].
  unfold month_index. rewrite Hy, Hm.
  pose proof (Z.div_mod (MonthFromTime t + 3) 12). lia.
Qed.

(** X23, where the code is right about the expiry, in every time zone: when
    the local day of the month is the 28th or earlier, the expiry that
    [setMonth(getMonth() + 3)] leaves is the instant of a local time three
    calendar months on, with the same day of the month and the same time of
    day on the local clock; read back in local time it is that local time,
    unless the zone skips it. *)
Theorem setMonth_three_months z t :
  DateFromTime (LocalTime z t) <= 28 ->
  ∃ wall,
    setMonth z t (getMonth z t + 3) = UTC z wall ∧
    month_index wall = month_index (LocalTime z t) + 3 ∧
    DateFromTime wall = DateFromTime (LocalTime z t) ∧
    TimeWithinDay wall = TimeWithinDay (LocalTime z t) ∧
    (offset_at z (UTC z wall) = offset_of_local z wall ->
     LocalTime z (setMonth z t (getMonth z t + 3)) = wall).
Proof.
  intros Hd. exists (with_month (LocalTime z t) (getMonth z t + 3)).
  destruct (with_month_three_months _ Hd) as (Hm & Hdate & Htime).
  split_and!; try done.
  intros Ho. unfold setMonth. unfold LocalTime at 1. rewrite Ho. unfold UTC. lia.
Qed.

(** * Further properties *)

(** ** [baseUsername] *)

Lemma is_space_lower c : is_space (lower_ascii c) = is_space c.
Proof. destruct c as [[] [] [] [] [] [] [] []]; reflexivity. Qed.

Lemma spaceless_app s t : spaceless (s +:+ t) = (spaceless s && spaceless t)%bool.
Proof.
  induction s as [|c s IH]; [done|].
  change (String c s +:+ t) with (String c (s +:+ t)).
  cbn [spaceless]. rewrite IH. by rewrite andb_assoc.
Qed.

Lemma spaceless_lower s : spaceless (toLowerCase s) = spaceless s.
Proof.
  induction s as [|c s IH]; [done|]. cbn [toLowerCase spaceless].
  by rewrite is_space_lower, IH.
Qed.

Lemma spaceless_remove_spaces s : spaceless (remove_spaces s) = true.
Proof.
  induction s as [|c s IH]; [done|]. cbn [remove_spaces].
  destruct (is_space c) eqn:Hc; [done|]. cbn [spaceless]. by rewrite Hc, IH.
Qed.

Lemma trimEnd_head c s :
  is_space c = false -> ∃ t, trimEnd (String c s) = String c t.
Proof.
  intros Hc. cbn [trimEnd]. rewrite Hc. destruct (trimEnd s); by eexists.
Qed.

(** The first character left by [trim] is the first one that is not white
    space. *)
Lemma charAt0_trim s : charAt0 (trim s) = charAt0 (trimStart s).
Proof.
  unfold trim. induction s as [|c s IH]; [done|]. cbn [trimStart].
  destruct (is_space c) eqn:Hc; [done|].
  by destruct (trimEnd_head c s Hc) as [t ->].
Qed.

Lemma spaceless_charAt0_trimStart s : spaceless (charAt0 (trimStart s)) = true.
Proof.
  induction s as [|c s IH]; [done|]. cbn [trimStart].
  destruct (is_space c) eqn:Hc; [done|]. cbn. by rewrite Hc.
Qed.

Lemma remove_spaces_trimStart s : remove_spaces (trimStart s) = remove_spaces s.
Proof.
  induction s as [|c s IH]; [done|]. cbn [trimStart remove_spaces].
  destruct (is_space c) eqn:Hc; [done|]. cbn [remove_spaces]. by rewrite Hc.
Qed.

Lemma remove_spaces_trimEnd s : remove_spaces (trimEnd s) = remove_spaces s.
Proof.
  induction s as [|c s IH]; [done|]. cbn [trimEnd remove_spaces].
  destruct (trimEnd s) as [|d t] eqn:Ht.
  - rewrite <- IH. destruct (is_space c) eqn:Hc; [done|]. cbn. by rewrite Hc.
  - cbn [remove_spaces] in *. by rewrite IH.
Qed.

(** Trimming the last name first changes nothing: the blanks go anyway. *)
Lemma remove_spaces_trim s : remove_spaces (trim s) = remove_spaces s.
Proof. unfold trim. by rewrite remove_spaces_trimEnd, remove_spaces_trimStart. Qed.

Lemma remove_spaces_lower s :
  remove_spaces (toLowerCase s) = toLowerCase (remove_spaces s).
Proof.
  induction s as [|c s IH]; [done|]. cbn [toLowerCase remove_spaces].
  rewrite is_space_lower. destruct (is_space c); [done|].
  cbn [toLowerCase]. by rewrite IH.
Qed.

(** *** Printed integers *)

Lemma decimal_text_app s t :
  decimal_text (s +:+ t) = (decimal_text s && decimal_text t)%bool.
Proof.
  induction s as [|c s IH]; [done|].
  change (String c s +:+ t) with (String c (s +:+ t)).
  cbn [decimal_text]. rewrite IH. by rewrite andb_assoc.
Qed.

Lemma decimal_char_pretty k : decimal_char (pretty_N_char k) = true.
Proof. unfold pretty_N_char. by repeat case_match. Qed.

Lemma decimal_text_pretty_N_go x s :
  decimal_text s = true -> decimal_text (pretty_N_go x s) = true.
Proof.
  revert s. induction (N.lt_wf_0 x) as [x _ IH]; intros s Hs.
  destruct (decide (x = 0%N)) as [->|Hx]; [by rewrite pretty_N_go_0|].
  rewrite pretty_N_go_step by lia.
  apply IH; [apply N.div_lt; lia|].
  cbn [decimal_text]. by rewrite decimal_char_pretty, Hs.
Qed.

Lemma decimal_text_pretty_N (x : N) : decimal_text (pretty x) = true.
Proof.
  unfold pretty, pretty_N. case_decide; [done|].
  by apply decimal_text_pretty_N_go.
Qed.

Lemma decimal_text_pretty (z : Z) : decimal_text (pretty z) = true.
Proof.
  destruct z as [|p|p]; [done|apply decimal_text_pretty_N|].
  change (pretty (Z.neg p)) with ("-" +:+ pretty (N.pos p)).
  rewrite decimal_text_app. by rewrite decimal_text_pretty_N.
Qed.

Lemma decimal_text_zeros k : decimal_text (zeros k) = true.
Proof. induction k as [|k IH]; [done|]. cbn [zeros decimal_text]. by rewrite IH. Qed.

Lemma decimal_text_padStart w n : decimal_text (padStart w n) = true.
Proof.
  unfold padStart. by rewrite decimal_text_app, decimal_text_zeros, decimal_text_pretty.
Qed.

Lemma decimal_text_substring n m s :
  decimal_text s = true -> decimal_text (String.substring n m s) = true.
Proof.
  revert n m. induction s as [|c s IH]; intros n m Hs.
  - by destruct n, m.
  - cbn [decimal_text] in Hs. apply andb_prop in Hs as [Hc Hs].
    destruct n as [|n]; [destruct m as [|m]; [done|]|]; cbn [String.substring].
    + cbn [decimal_text]. by rewrite Hc, IH.
    + by apply IH.
Qed.

Lemma decimal_char_plain c :
  decimal_char c = true -> is_space c = false ∧ lower_ascii c = c.
Proof. destruct c as [[] [] [] [] [] [] [] []]; by intros [=]. Qed.

Lemma decimal_text_plain s :
  decimal_text s = true -> spaceless s = true ∧ toLowerCase s = s.
Proof.
  induction s as [|c s IH]; [done|]. cbn [decimal_text spaceless toLowerCase].
  intros [Hc Hs]%andb_prop. destruct (decimal_char_plain c Hc) as [-> ->].
  destruct (IH Hs) as [-> ->]. done.
Qed.

Lemma app_assoc_string (s t u : string) : (s +:+ t) +:+ u = s +:+ t +:+ u.
Proof.
  induction s as [|c s IH]; [done|].
  change (String c (s +:+ t) +:+ u = String c (s +:+ t +:+ u)).
  change (String c ((s +:+ t) +:+ u) = String c (s +:+ t +:+ u)). by rewrite IH.
Qed.

Lemma pretty_N_go_acc x s : pretty_N_go x s = pretty_N_go x "" +:+ s.
Proof.
  revert s. induction (N.lt_wf_0 x) as [x _ IH]; intros s.
  destruct (decide (x = 0%N)) as [->|Hx]; [by rewrite !pretty_N_go_0|].
  rewrite !(pretty_N_go_step x) by lia.
  rewrite (IH (x `div` 10)%N) by (apply N.div_lt; lia).
  rewrite (IH (x `div` 10)%N ltac:(apply N.div_lt; lia) (String _ "")).
  by rewrite app_assoc_string.
Qed.

Lemma pretty_N_last_two (x : N) :
  (10 <= x)%N ->
  pretty x = pretty_N_go (x `div` 100)%N ""
             +:+ String (pretty_N_char ((x `div` 10) `mod` 10)%N)
                   (String (pretty_N_char (x `mod` 10)%N) "").
Proof.
  intros Hx. unfold pretty, pretty_N. rewrite decide_False by lia.
  rewrite pretty_N_go_step by lia.
  rewrite pretty_N_go_step by (apply N.div_str_pos; lia).
  rewrite pretty_N_go_acc. do 2 f_equal.
  rewrite N.Div0.div_div. done.
Qed.

Lemma slice_last2_app s a b :
  slice_last2 (s +:+ String a (String b "")) = String a (String b "").
Proof.
  unfold slice_last2.
  assert (String.length (s +:+ String a (String b "")) = S (S (String.length s))) as ->.
  { induction s as [|c s IH]; [done|].
    change (String c s +:+ ?t) with (String c (s +:+ t)).
    cbn [String.length]. by rewrite IH. }
  cbn [Nat.sub]. rewrite Nat.sub_0_r.
  induction s as [|c s IH]; [done|].
  change (String c s +:+ ?t) with (String c (s +:+ t)). by cbn.
Qed.

Lemma padStart2_small (r : N) :
  (r < 100)%N ->
  padStart 2 (Z.of_N r)
  = String (pretty_N_char (r `div` 10)%N) (String (pretty_N_char (r `mod` 10)%N) "").
Proof.
  intros Hr. unfold padStart.
  destruct (decide (r = 0)%N) as [->|H0]; [done|].
  assert (pretty (Z.of_N r) = pretty r) as ->.
  { destruct r; [done|reflexivity]. }
  destruct (decide (r < 10)%N) as [Hlt|Hge].
  - unfold pretty, pretty_N. rewrite decide_False by done.
    rewrite pretty_N_go_step by lia.
    rewrite (N.div_small r 10) by done. rewrite pretty_N_go_0.
    rewrite (N.mod_small r 10) by done. done.
  - rewrite pretty_N_last_two by lia.
    rewrite (N.div_small r 100) by done. rewrite pretty_N_go_0.
    rewrite (N.mod_small (r `div` 10) 10); [done|].
    apply N.Div0.div_lt_upper_bound. lia.
Qed.

(** [String(y).slice(-2)] is the year in the century, on two digits. *)
Lemma slice_last2_year (y : Z) :
  10 <= y -> slice_last2 (pretty y) = padStart 2 (y mod 100).
Proof.
  intros Hy. destruct y as [|p|p]; try lia.
  change (pretty (Z.pos p)) with (pretty (N.pos p)).
  rewrite pretty_N_last_two by lia. rewrite slice_last2_app.
  assert (Z.pos p mod 100 = Z.of_N (N.pos p mod 100)) as -> by (by rewrite N2Z.inj_mod).
  rewrite padStart2_small by (apply N.mod_lt; lia).
  set (x := N.pos p). clearbody x.
  assert (((x `div` 10) `mod` 10 = (x `mod` 100) `div` 10)%N
          ∧ (x `mod` 10 = (x `mod` 100) `mod` 10)%N) as [-> ->]; [|done].
  split; apply N2Z.inj;
    rewrite ?N2Z.inj_div, ?N2Z.inj_mod, ?N2Z.inj_div, ?N2Z.inj_mod;
    pose proof (N2Z.is_nonneg x); change (Z.of_N 10) with 10;
    change (Z.of_N 100) with 100; Z.div_mod_to_equations; lia.
Qed.

Lemma MonthFromTime_range t : 0 <= MonthFromTime t <= 11.
Proof.
  unfold MonthFromTime, civil_from_days. cbn [fst snd].
  case_match; Z.div_mod_to_equations; lia.
Qed.

Lemma length_padStart2 (n : Z) : 0 <= n < 100 -> String.length (padStart 2 n) = 2%nat.
Proof.
  intros Hn. rewrite <- (Z2N.id n) by lia.
  rewrite padStart2_small by lia. done.
Qed.

Lemma string_receiver_run v name method w :
  string_receiver v name method w =
    match receiver_text v with
    | Some s => (Ret s, w)
    | None => (Throw ("(" +:+ name +:+ " || " +:+ dq +:+ dq +:+ ")." +:+ method
                        +:+ " is not a function"), w)
    end.
Proof. unfold string_receiver, receiver_text. by destruct (js_or v _). Qed.

Lemma baseUsername_run first_name last_name when w :
  baseUsername first_name last_name when w =
    match receiver_text first_name, receiver_text last_name with
    | Some f, Some l =>
        (Ret (toLowerCase (charAt0 (trim f) +:+ remove_spaces (trim l)
                +:+ padStart 2 (getMonth (zone w) (reference_date when w) + 1)
                +:+ slice_last2 (pretty (getFullYear (zone w) (reference_date when w))))), w)
    | Some _, None =>
        (Throw ("(last_name || " +:+ dq +:+ dq +:+ ").trim is not a function"), w)
    | None, _ =>
        (Throw ("(first_name || " +:+ dq +:+ dq +:+ ").trim is not a function"), w)
    end.
Proof.
  unfold baseUsername, bind, reference_date.
  destruct when as [t|]; cbn [new_Date local_zone ret default];
    rewrite string_receiver_run; destruct (receiver_text first_name); try done;
    rewrite string_receiver_run; by destruct (receiver_text last_name).
Qed.

(** X1: whatever the names, a base username that is returned has no white
    space in it and is in lower case; from year 10 on it ends in the month
    and the year in the century, two digits each; the world is left alone. *)
Theorem baseUsername_shape first_name last_name when w base w' :
  baseUsername first_name last_name when w = (Ret base, w') ->
  w' = w ∧ spaceless base = true ∧ toLowerCase base = base ∧
  (10 <= getFullYear (zone w) (reference_date when w) ->
   ∃ stem,
     base = stem +:+ padStart 2 (getMonth (zone w) (reference_date when w) + 1)
                 +:+ padStart 2 (getFullYear (zone w) (reference_date when w) mod 100) ∧
     String.length (padStart 2 (getMonth (zone w) (reference_date when w) + 1)) = 2%nat ∧
     String.length (padStart 2 (getFullYear (zone w) (reference_date when w) mod 100)) = 2%nat).
Proof.
  rewrite baseUsername_run.
  destruct (receiver_text first_name) as [f|]; [|done].
  destruct (receiver_text last_name) as [l|]; [|done].
  intros [= <- <-]. set (t := reference_date when w).
  pose proof (decimal_text_padStart 2 (getMonth (zone w) t + 1)) as Hmm.
  pose proof (decimal_text_substring (String.length (pretty (getFullYear (zone w) t)) - 2) 2
                _ (decimal_text_pretty (getFullYear (zone w) t))) as Hyy.
  fold (slice_last2 (pretty (getFullYear (zone w) t))) in Hyy.
  apply decimal_text_plain in Hmm as [Hmm1 Hmm2].
  apply decimal_text_plain in Hyy as [Hyy1 Hyy2].
  split_and!; [done| |apply toLowerCase_idem|].
  - rewrite spaceless_lower, !spaceless_app, Hmm1, Hyy1.
    by rewrite charAt0_trim, spaceless_charAt0_trimStart, spaceless_remove_spaces.
  - intros Hy. rewrite <- slice_last2_year by done.
    exists (toLowerCase (charAt0 (trim f) +:+ remove_spaces (trim l))).
    split_and!.
    + rewrite !toLowerCase_app, Hmm2, Hyy2. by rewrite app_assoc_string.
    + apply length_padStart2.
      pose proof (MonthFromTime_range (LocalTime (zone w) t)).
      unfold getMonth. lia.
    + rewrite slice_last2_year by done. apply length_padStart2.
      apply Z.mod_pos_bound. lia.
Qed.

(** X2: for names written in ASCII, first names with the same initial up
    to case and leading blanks, and last names equal up to case and blanks,
    get the same base username for the same reference date. *)
Theorem baseUsername_collides f1 l1 f2 l2 when w :
  ascii_text f1 = true -> ascii_text l1 = true ->
  ascii_text f2 = true -> ascii_text l2 = true ->
  toLowerCase (charAt0 (trimStart f1)) = toLowerCase (charAt0 (trimStart f2)) ->
  toLowerCase (remove_spaces l1) = toLowerCase (remove_spaces l2) ->
  baseUsername (VStr f1) (VStr l1) when w = baseUsername (VStr f2) (VStr l2) when w.
Proof.
  intros _ _ _ _ Hf Hl. rewrite !baseUsername_run.
  assert (∀ s, receiver_text (VStr s) = Some s) as Hrecv.
  { intros s. unfold receiver_text, js_or, truthy.
    destruct (String.eqb_spec s ""); by subst. }
  rewrite !Hrecv. do 2 f_equal.
  rewrite !toLowerCase_app, !charAt0_trim, !remove_spaces_trim.
  by rewrite Hf, Hl.
Qed.

(** X3: a name that is missing ([undefined], [null] or empty) contributes
    nothing, so that with both names missing the result is the four digits
    of month and year; a name that is a number or a boolean [true] makes
    the call throw. *)
Theorem baseUsername_missing_names first_name last_name when w :
  (truthy first_name = false -> truthy last_name = false ->
   baseUsername first_name last_name when w =
     (Ret (padStart 2 (getMonth (zone w) (reference_date when w) + 1)
           +:+ slice_last2 (pretty (getFullYear (zone w) (reference_date when w)))), w)) ∧
  (truthy first_name = true -> (∀ s, first_name ≠ VStr s) ->
   ∃ msg, baseUsername first_name last_name when w = (Throw msg, w)) ∧
  (truthy last_name = true -> (∀ s, last_name ≠ VStr s) ->
   ∃ msg, baseUsername first_name last_name when w = (Throw msg, w)).
Proof.
  rewrite baseUsername_run. split_and!.
  - intros Hf Hl. unfold receiver_text, js_or. rewrite Hf, Hl.
    cbn [trim trimStart trimEnd charAt0 remove_spaces]. do 2 f_equal.
    set (t := reference_date when w).
    pose proof (decimal_text_padStart 2 (getMonth (zone w) t + 1)) as Hmm.
    pose proof (decimal_text_substring (String.length (pretty (getFullYear (zone w) t)) - 2) 2
                  _ (decimal_text_pretty (getFullYear (zone w) t))) as Hyy.
    fold (slice_last2 (pretty (getFullYear (zone w) t))) in Hyy.
    apply decimal_text_plain in Hmm as [_ Hmm].
    apply decimal_text_plain in Hyy as [_ Hyy].
    change ("" +:+ "" +:+ ?s) with s. by rewrite toLowerCase_app, Hmm, Hyy.
  - intros Hf Hne. unfold receiver_text at 1, js_or. rewrite Hf.
    destruct first_name as [| | | |x]; try by eexists. by destruct (Hne x).
  - intros Hl Hne. destruct (receiver_text first_name); [|by eexists].
    unfold receiver_text, js_or. rewrite Hl.
    destruct last_name as [| | | |x]; try by eexists. by destruct (Hne x).
Qed.

(** ** [ensureUniqueUsername], on base usernames *)

Lemma resolver_run fuel desired w :
  next_fault w = None ->
  Forall text_username (snapshot desired w) ->
  (length (snapshot desired w) < fuel)%nat ->
  ∃ name,
    ensureUniqueUsername fuel desired w = (Ret name, served w) ∧
    ((name = desired ∧ toLowerCase desired ∉ lowered_names (snapshot desired w)) ∨
     (toLowerCase desired ∈ lowered_names (snapshot desired w) ∧
      ∃ n, (2 <= n)%nat ∧ name = candidate desired n ∧
           (candidate desired n ∉ lowered_names (snapshot desired w)) ∧
           ∀ m, (2 <= m < n)%nat ->
                candidate desired m ∈ lowered_names (snapshot desired w))).
Proof.
  intros Hf Htext Hfuel. unfold ensureUniqueUsername, bind.
  rewrite select_where_run, Hf. fold (snapshot desired w).
  destruct (lowered_names_text _ Htext) as [Hnames Hlen].
  set (names := lowered_names (snapshot desired w)) in *.
  cbn [error data ok_response].
  destruct (snapshot desired w) as [|r rows] eqn:Hrows.
  { exists desired. split; [done|]. left. split; [done|].
    subst names. unfold lowered_names. cbn. apply not_elem_of_nil. }
  rewrite Hnames. case_decide as Hin.
  - destruct (probe_terminates (list_to_set names) desired fuel 2) as [n Hn].
    { pose proof (size_list_to_set_le names). lia. }
    rewrite Hn. apply probe_Some in Hn as (Hge & Hfree & Hlow).
    exists (candidate desired n). split; [done|]. right.
    rewrite elem_of_list_to_set in Hin, Hfree. split; [done|].
    exists n. split_and!; [done..|].
    intros m Hm. by apply (elem_of_list_to_set (C := gset string)), Hlow.
  - exists desired. split; [done|]. left.
    by rewrite elem_of_list_to_set in Hin.
Qed.

Lemma startsWith_app s t : startsWith (s +:+ t) s = true.
Proof.
  induction s as [|c s IH]; [by destruct t|].
  change (String c s +:+ t) with (String c (s +:+ t)).
  cbn [startsWith]. by rewrite Ascii.eqb_refl, IH.
Qed.

Lemma startsWith_refl s : startsWith s s = true.
Proof. induction s as [|c s IH]; [done|]. cbn. by rewrite Ascii.eqb_refl, IH. Qed.

(** X4: for a base username (which is in lower case) the resolver answers
    the base itself when it is free, and otherwise the first of base-2,
    base-3, ... that is free; either way the answer begins with the base
    and is not among the names of the snapshot. *)
Theorem ensureUniqueUsername_on_base first_name last_name when w0 base fuel w :
  baseUsername first_name last_name when w0 = (Ret base, w0) ->
  next_fault w = None ->
  Forall text_username (snapshot base w) ->
  (length (snapshot base w) < fuel)%nat ->
  ∃ name,
    ensureUniqueUsername fuel base w = (Ret name, served w) ∧
    (if decide (base ∈ lowered_names (snapshot base w))
     then first_free_suffix base (lowered_names (snapshot base w)) name
     else name = base) ∧
    startsWith name base = true ∧
    name ∉ lowered_names (snapshot base w).
Proof.
  intros Hbase Hf Htext Hfuel.
  assert (toLowerCase base = base) as Hlow.
  { rewrite baseUsername_run in Hbase.
    destruct (receiver_text first_name); [|done].
    destruct (receiver_text last_name); [|done].
    injection Hbase as <-. apply toLowerCase_idem. }
  destruct (resolver_run fuel base w Hf Htext Hfuel) as (name & Hrun & Hname).
  exists name. split; [done|]. rewrite Hlow in Hname.
  destruct Hname as [[-> Hfree]|(Hin & n & Hn & -> & Hfree & Hless)].
  - rewrite decide_False by done. split_and!; [done|apply startsWith_refl|done].
  - rewrite decide_True by done.
    assert (∀ m, candidate base m = suffixed base m) as Hcand.
    { intros m. unfold candidate, suffixed. by rewrite Hlow. }
    rewrite Hcand in *. setoid_rewrite Hcand in Hless.
    split_and!; [|apply startsWith_app|done].
    assert (∀ m, toLowerCase (suffixed base m) = suffixed base m) as Hsuf.
    { intros m. unfold suffixed.
      by rewrite !toLowerCase_app, Hlow, toLowerCase_pretty_nat. }
    exists n. split_and!; [done|done|by rewrite Hsuf|].
    intros m Hm. rewrite Hsuf. by apply Hless.
Qed.

(** ** [loginUserByUsername], case by case *)

Section login_cases.
Context `{BcryptCore}.

(** The world a legacy login leaves once the credential has been hashed and
    the rewrite sent. *)
Lemma migrate_run user stored w :
  isHashed stored = false ->
  migrate user (VStr stored) stored w =
    (Ret tt,
     match next_fault w with
     | Some _ => served (salted w)
     | None =>
         set_table (rewritten (get user "id") (crypt (drawn_salt w) stored) (table w))
           (served (salted w))
     end).
Proof.
  intros Hl. unfold migrate, bind. rewrite Hl. cbn [negb].
  rewrite bcrypt_hash_run, update_run.
  change (next_fault (salted w)) with (next_fault w).
  destruct (next_fault w); [done|]. by rewrite rewritten_update.
Qed.

Lemma login_found username password w user stored :
  next_fault w = None ->
  selected (FIlike "username" (ToString username)) w = [user] ->
  truthy (get user "approved") = true ->
  js_or (get user "password") (VStr "") = VStr stored ->
  loginUserByUsername username password w =
    if isHashed stored then
      match password with
      | VStr plaintext =>
          (Ret (if String.eqb (crypt (String.substring 0 29 stored) plaintext) stored
                then LoginUser (delete "password" user)
                else LoginError "Incorrect password"), served w)
      | VUndef | VNull =>
          (Ret (LoginError "data and hash arguments required"), served w)
      | _ => (Ret (LoginError "data and hash must be strings"), served w)
      end
    else if bool_decide (password = VStr stored) then
      (Ret (LoginUser (delete "password" user)),
       match next_fault (served w) with
       | Some _ => served (salted (served w))
       | None =>
           set_table (rewritten (get user "id")
                        (crypt (drawn_salt (served w)) stored) (table w))
             (served (salted (served w)))
       end)
    else (Ret (LoginError "Incorrect password"), served w).
Proof.
  intros Hf Hs Ha Hp. rewrite login_lookup, Hf, Hs, Ha, Hp. cbn [negb].
  unfold try_catch, bind. destruct (isHashed stored) eqn:Hh.
  - unfold verify. rewrite Hh. unfold bcrypt_compare, throw, ret.
    destruct password as [| | | |plaintext]; try done.
    destruct (String.eqb _ stored); [|done]. cbn [negb].
    unfold migrate. by rewrite Hh.
  - rewrite verify_legacy by done. case_bool_decide as Hpw; cbn [negb]; [|done].
    subst password. by rewrite migrate_run.
Qed.

(** X5: against a hashed credential the answer is [bcrypt.compare]'s, a
    password that is not a string is answered with bcrypt's own message, and
    in no case is anything written: one request is spent and the table is
    as before. *)
Theorem login_hashed_credential username password w user stored :
  next_fault w = None ->
  selected (FIlike "username" (ToString username)) w = [user] ->
  truthy (get user "approved") = true ->
  js_or (get user "password") (VStr "") = VStr stored ->
  isHashed stored = true ->
  loginUserByUsername username password w =
    (Ret match password with
         | VStr plaintext =>
             if String.eqb (crypt (String.substring 0 29 stored) plaintext) stored
             then LoginUser (delete "password" user)
             else LoginError "Incorrect password"
         | VUndef | VNull => LoginError "data and hash arguments required"
         | _ => LoginError "data and hash must be strings"
         end, served w).
Proof.
  intros Hf Hs Ha Hp Hh. rewrite (login_found _ _ _ user stored) by done.
  rewrite Hh. by destruct password.
Qed.

(** X6: against a legacy credential, anything but the very string stored
    (another string, a number, a missing password) is answered 'Incorrect
    password', and nothing is written. *)
Theorem login_legacy_mismatch username password w user stored :
  next_fault w = None ->
  selected (FIlike "username" (ToString username)) w = [user] ->
  truthy (get user "approved") = true ->
  js_or (get user "password") (VStr "") = VStr stored ->
  isHashed stored = false ->
  password ≠ VStr stored ->
  loginUserByUsername username password w =
    (Ret (LoginError "Incorrect password"), served w).
Proof.
  intros Hf Hs Ha Hp Hh Hne. rewrite (login_found _ _ _ user stored) by done.
  rewrite Hh. by rewrite bool_decide_false.
Qed.

(** X7: when the rewrite of a legacy credential is refused by the store,
    the login succeeds all the same and the stored row keeps its plaintext. *)
Theorem login_migration_failure_is_silent username w user stored e :
  next_fault w = None ->
  next_fault (served w) = Some e ->
  selected (FIlike "username" (ToString username)) w = [user] ->
  truthy (get user "approved") = true ->
  js_or (get user "password") (VStr "") = VStr stored ->
  isHashed stored = false ->
  (loginUserByUsername username (VStr stored) w).1 =
    Ret (LoginUser (delete "password" user)) ∧
  table (loginUserByUsername username (VStr stored) w).2 = table w.
Proof.
  intros Hf Hf2 Hs Ha Hp Hh. rewrite (login_found _ _ _ user stored) by done.
  rewrite Hh, bool_decide_true by done. by rewrite Hf2.
Qed.

(** X8: a login never throws; an error answer leaves the table as it was,
    and so does every login with a faulty store. *)
Theorem login_always_answers username password w :
  ∃ res w',
    loginUserByUsername username password w = (Ret res, w') ∧
    (∀ msg, res = LoginError msg -> table w' = table w) ∧
    (is_Some (next_fault w) -> table w' = table w).
Proof.
  destruct (next_fault w) as [e|] eqn:Hf.
  { rewrite login_lookup, Hf. eexists _, _. split_and!; done. }
  destruct (selected (FIlike "username" (ToString username)) w)
    as [|user [|]] eqn:Hs;
    try (rewrite login_lookup, Hf, Hs; eexists _, _;
         split_and!; [done|done|by intros [? [=]]]).
  destruct (truthy (get user "approved")) eqn:Ha.
  2:{ rewrite (login_unapproved _ _ _ user) by done.
      eexists _, _; split_and!; [done|done|by intros [? [=]]]. }
  destruct (js_or (get user "password") (VStr "")) as [| | | |stored] eqn:Hp.
  1-4: rewrite login_lookup, Hf, Hs, Ha, Hp; cbn [negb];
       eexists _, _; split_and!; [done|done|by intros [? [=]]].
  rewrite (login_found _ _ _ user stored) by done.
  destruct (isHashed stored).
  - destruct password as [| | | |plaintext];
      eexists _, _; (split_and!; [done|done|by intros [? [=]]]).
  - case_bool_decide; eexists _, _;
      (split_and!; [done|done|by intros [? [=]]]).
Qed.
End login_cases.

(** X9: for a username without [%], [*], [_] and backslash, the login's
    lookup selects exactly the rows whose stored username is that text up
    to case. *)
Theorem login_lookup_plain username w :
  plain (ToString username) = true ->
  selected (FIlike "username" (ToString username)) w =
    List.filter
      (fun r => match r !! "username" with
                | Some (VStr s) => same_username (ToString username) s
                | _ => false
                end) (table w).
Proof.
  intros Hplain. unfold selected. apply List.filter_ext. intros r.
  unfold matches. destruct (r !! "username") as [[| | | |s]|]; try done.
  by apply ilike_plain.
Qed.

(** ** [signupUser], case by case *)

Section signup_cases.
Context `{BcryptCore}.

Lemma get_text (o : obj) k s : get o k = VStr s -> o !! k = Some (VStr s).
Proof. unfold get. destruct (o !! k); cbn; [congruence|done]. Qed.

Lemma signup_rest_run user w :
  signup_rest user w =
    match get user "password" with
    | VStr plaintext =>
        match next_fault w with
        | Some e => (Ret (SignupStoreError e), served (salted w))
        | None =>
            (Ret (SignupMessage "Signup successful, awaiting approval"),
             set_next_id (match user !! "id" with
                          | Some _ => next_id w
                          | None => next_id w + 1
                          end)
               (set_table (table w ++ [stored_record user plaintext w])
                  (served (salted w))))
        end
    | VUndef | VNull => (Ret (SignupError "data and salt arguments required"), w)
    | _ => (Ret (SignupError "data must be a string or Buffer and salt must either be a salt string or a number of rounds"), w)
    end.
Proof.
  destruct (get user "password") as [| | | |plaintext] eqn:Hp;
    [..|by apply signup_rest_text];
    unfold signup_rest, try_catch, bind; by rewrite Hp.
Qed.

(** X10: a signup never throws, and its answer tells what happened to the
    table: with the success message exactly one record was added, with any
    error none. *)
Theorem signup_always_answers user w :
  ∃ res w',
    signupUser user w = (Ret res, w') ∧
    match res with
    | SignupMessage _ => ∃ record, table w' = table w ++ [record]
    | _ => table w' = table w
    end.
Proof.
  rewrite signup_lookup.
  assert (∃ res w', signup_rest user (served w) = (Ret res, w') ∧
            match res with
            | SignupMessage _ => ∃ record, table w' = table w ++ [record]
            | _ => table w' = table w
            end) as Hrest.
  { rewrite signup_rest_run.
    destruct (get user "password"); try by eexists _, _.
    destruct (next_fault (served w)); eexists _, _; (split; [done|]); [done|].
    by eexists. }
  destruct (next_fault w); [done|].
  destruct (selected _ w) as [|r [|]]; try done. by eexists _, _.
Qed.

(** X11: a candidate whose [password] is missing or not a string is always
    refused, with 'Email already registered' or bcrypt's message, and
    nothing is inserted. *)
Theorem signup_without_password user w :
  (∀ s, get user "password" ≠ VStr s) ->
  ∃ msg,
    signupUser user w = (Ret (SignupError msg), served w) ∧
    msg ∈ signup_messages.
Proof.
  intros Hp. rewrite signup_lookup.
  assert (∃ msg, signup_rest user (served w) = (Ret (SignupError msg), served w) ∧
            msg ∈ signup_messages)
    as Hrest.
  { rewrite signup_rest_run.
    destruct (get user "password") as [| | | |s]; [..|by destruct (Hp s)];
      eexists; (split; [done|]); unfold signup_messages; rewrite !elem_of_cons; tauto. }
  destruct (next_fault w); [done|].
  destruct (selected _ w) as [|r [|]]; try done.
  eexists. split; [done|]. unfold signup_messages. rewrite !elem_of_cons; tauto.
Qed.

(** X12: when the store refuses the insert, the signup answers the store's
    error object as it is and the table is unchanged. *)
Theorem signup_insert_refused user plaintext w e :
  next_fault w = None ->
  selected (FEq "email" (get user "email")) w = [] ->
  get user "password" = VStr plaintext ->
  next_fault (served w) = Some e ->
  (signupUser user w).1 = Ret (SignupStoreError e) ∧
  table (signupUser user w).2 = table w.
Proof.
  intros Hf Hs Hp He. rewrite signup_lookup, Hf, Hs, signup_rest_run, Hp, He. done.
Qed.

Lemma quiet_served w : faults w = [] -> served w = w ∧ next_fault w = None.
Proof.
  intros Hf. destruct w as [t fs i c en]. cbn in Hf. subst fs. done.
Qed.

Lemma signup_fresh_run user plaintext w :
  faults w = [] ->
  selected (FEq "email" (get user "email")) w = [] ->
  get user "password" = VStr plaintext ->
  ∃ w',
    signupUser user w =
      (Ret (SignupMessage "Signup successful, awaiting approval"), w') ∧
    table w' = table w ++ [stored_record user plaintext w] ∧ faults w' = [].
Proof.
  intros Hf Hs Hp. destruct (quiet_served w Hf) as [Hw Hn].
  rewrite signup_lookup, Hn, Hs, Hw, signup_rest_run, Hp, Hn.
  eexists. split; [done|]. split; [done|]. cbn. by rewrite Hf.
Qed.

Lemma selected_app f w t1 t2 :
  table w = t1 ++ t2 ->
  selected f w = List.filter (matches f) t1 ++ List.filter (matches f) t2.
Proof. intros Ht. unfold selected. rewrite Ht. apply List.filter_app. Qed.

(** X13: in a store that answers, after the signup of a new email every
    further candidate with that email is refused with 'Email already
    registered', and nothing more is inserted. *)
Theorem signup_twice user email plaintext w again :
  faults w = [] ->
  get user "email" = VStr email ->
  get again "email" = VStr email ->
  selected (FEq "email" (VStr email)) w = [] ->
  get user "password" = VStr plaintext ->
  (signupUser user w).1 = Ret (SignupMessage "Signup successful, awaiting approval") ∧
  table (signupUser user w).2 = table w ++ [stored_record user plaintext w] ∧
  (signupUser again (signupUser user w).2).1 = Ret (SignupError "Email already registered") ∧
  table (signupUser again (signupUser user w).2).2 = table (signupUser user w).2.
Proof.
  intros Hf He He' Hs Hp.
  destruct (signup_fresh_run user plaintext w Hf) as (w' & -> & Ht & Hf');
    [by rewrite He|done|].
  cbn [fst snd].
  assert (signupUser again w' = (Ret (SignupError "Email already registered"), served w'))
    as ->.
  { destruct (quiet_served w' Hf') as [Hw' Hn'].
    rewrite signup_lookup, Hn', He', (selected_app _ w' _ _ Ht).
    fold (selected (FEq "email" (VStr email)) w). rewrite Hs. cbn [app List.filter].
    assert (matches (FEq "email" (VStr email)) (stored_record user plaintext w) = true)
      as ->; [|done].
    unfold matches. rewrite stored_record_lookup by done.
    unfold record_at, signup_record. rewrite !lookup_insert_ne by done.
    rewrite (get_text _ _ _ He). cbn. apply String.eqb_refl. }
  done.
Qed.
End signup_cases.

(** ** Signup, then login *)

Section gate.
Context `{BcryptCore}.


(** Every answer of a login, and where the approval message comes from. *)
Lemma login_results username password w :
  ∃ res w',
    loginUserByUsername username password w = (Ret res, w') ∧
    ((∃ user, res = LoginUser (delete "password" user)) ∨
     (∃ msg, res = LoginError msg ∧ msg ∈ login_messages ∧
        (msg = "Account awaiting approval" ↔
         next_fault w = None ∧
         ∃ user, selected (FIlike "username" (ToString username)) w = [user] ∧
                 truthy (get user "approved") = false))).
Proof.
  assert (∀ msg, msg ∈ login_messages -> msg ≠ "Account awaiting approval" ->
            ¬ (next_fault w = None ∧
               ∃ user, selected (FIlike "username" (ToString username)) w = [user] ∧
                       truthy (get user "approved") = false) ->
            ∃ msg', LoginError msg = LoginError msg' ∧ msg' ∈ login_messages ∧
              (msg' = "Account awaiting approval" ↔
               next_fault w = None ∧
               ∃ user, selected (FIlike "username" (ToString username)) w = [user] ∧
                       truthy (get user "approved") = false)) as Hother.
  { intros msg Hin Hne Hno. exists msg. split_and!; [done..|]. split; [done|].
    intros Hyes. by destruct Hno. }
  assert (∀ msg : string, msg ∈ login_messages ↔
            msg = "No account found" ∨ msg = "Account awaiting approval" ∨
            msg = "Incorrect password" ∨ msg = "data and hash arguments required" ∨
            msg = "data and hash must be strings" ∨
            msg = "stored.startsWith is not a function") as Hmsgs.
  { intros msg. unfold login_messages. rewrite !elem_of_cons, elem_of_nil. tauto. }
  destruct (next_fault w) as [e|] eqn:Hf.
  { rewrite login_lookup, Hf. eexists _, _. split; [done|]. right.
    apply Hother; [apply Hmsgs; tauto|done|]. by intros [? _]. }
  destruct (selected (FIlike "username" (ToString username)) w)
    as [|user [|]] eqn:Hs;
    try (rewrite login_lookup, Hf, Hs; eexists _, _; split; [done|]; right;
         apply Hother; [apply Hmsgs; tauto|done|]; by intros [_ (? & [=] & _)]).
  destruct (truthy (get user "approved")) eqn:Ha.
  2:{ rewrite (login_unapproved _ _ _ user) by done.
      eexists _, _. split; [done|]. right. eexists. split; [done|].
      split; [apply Hmsgs; tauto|]. split; [|done].
      intros _. split; [done|]. by exists user. }
  assert (¬ (@None pg_error = None ∧ ∃ user0, [user] = [user0] ∧
               truthy (get user0 "approved") = false)) as Hno.
  { intros [_ (? & [= <-] & Hfalse)]. congruence. }
  destruct (js_or (get user "password") (VStr "")) as [| | | |stored] eqn:Hp.
  1-4: rewrite login_lookup, Hf, Hs, Ha, Hp; cbn [negb];
       eexists _, _; (split; [done|]); right;
       (apply Hother; [apply Hmsgs; tauto|done|done]).
  rewrite (login_found _ _ _ user stored) by done.
  destruct (isHashed stored).
  - destruct password as [| | | |plaintext];
      try (eexists _, _; (split; [done|]); right;
           apply Hother; [apply Hmsgs; tauto|done|done]).
    destruct (String.eqb _ stored); eexists _, _; (split; [done|]).
    + left. by eexists.
    + right. apply Hother; [apply Hmsgs; tauto|done|done].
  - case_bool_decide; eexists _, _; (split; [done|]).
    + left. by eexists.
    + right. apply Hother; [apply Hmsgs; tauto|done|done].
Qed.
End gate.

(** ** server.js *)

Lemma sendMail_run m s :
  ∃ r, sendMail m s =
         (r, Server (store s)
               (if mail_accepted m s then outbox s ++ [m] else outbox s)
               (tail (mail_faults s))) ∧
       if mail_accepted m s then r = Ret tt else ∃ msg, r = Throw msg.
Proof.
  unfold sendMail, mail_accepted.
  destruct (mail_faults s) as [|[msg|] fs]; cbn [tail].
  - destruct (truthy (mail_to m)); eexists; (split; [done|]); [done|by eexists].
  - eexists. split; [done|]. by eexists.
  - destruct (truthy (mail_to m)); eexists; (split; [done|]); [done|by eexists].
Qed.

Lemma login_message_status msg :
  msg ∈ login_messages ->
  truthy (VStr msg) = true ∧
  includes msg "approval" = bool_decide (msg = "Account awaiting approval").
Proof.
  unfold login_messages. rewrite !elem_of_cons, elem_of_nil.
  intros [->|[->|[->|[->|[->|[->|[]]]]]]]; by vm_compute.
Qed.

Section routes.
Context `{BcryptCore}.

(** X15: for a request with a parsed body the login route answers with
    200, 401 or 403 and never 500: 200 carries the user without a
    [password], an error carries login's message, and the status is 403
    exactly when the lookup found one record that is not approved; no mail
    is sent.  For a request without one, the handler throws ahead of its
    [try]: it sends no answer, makes no request to the store and sends no
    mail. *)
Theorem login_route_answers body s :
  match body with
  | None => ∃ msg, login_route None s = (Throw msg, s)
  | Some body =>
      ∃ resp s',
        login_route (Some body) s = (Ret resp, s') ∧
        outbox s' = outbox s ∧ mail_faults s' = mail_faults s ∧
        store s' = (loginUserByUsername (get body "username") (get body "password")
                      (store s)).2 ∧
        match (loginUserByUsername (get body "username") (get body "password")
                 (store s)).1 with
        | Ret (LoginUser user) =>
            resp = Http 200 (Json [("user", JObject user)]) ∧ user !! "password" = None
        | Ret (LoginError msg) =>
            resp = Http (if decide (msg = "Account awaiting approval") then 403 else 401)
                     (Json [("error", JValue (VStr msg))])
        | _ => False
        end ∧
        (status resp = 403 ↔
         next_fault (store s) = None ∧
         ∃ user,
           selected (FIlike "username" (ToString (get body "username"))) (store s)
             = [user] ∧
           truthy (get user "approved") = false)
  end.
Proof.
  destruct body as [body|]; [|by eexists].
  destruct (login_results (get body "username") (get body "password") (store s))
    as (res & w' & Hrun & Hres).
  unfold login_route, destructure_body, try_catchS, bindS, lift, retS.
  cbn [fst snd]. rewrite Hrun. cbn [fst snd].
  destruct Hres as [[user ->]|(msg & -> & Hin & Hiff)].
  - eexists _, _. split; [done|]. cbn [outbox mail_faults store status].
    do 3 (split; [done|]). split; [split; [done|apply lookup_delete_eq]|].
    split; [done|]. intros [Hf (user' & Hs & Ha)].
    rewrite login_lookup, Hf, Hs, Ha in Hrun. cbn in Hrun. congruence.
  - destruct (login_message_status msg Hin) as [-> ->].
    eexists _, _. split; [done|]. cbn [outbox mail_faults store status].
    do 3 (split; [done|]). split.
    + case_bool_decide; by case_decide.
    + rewrite <- Hiff. by case_bool_decide.
Qed.
End routes.

Lemma update_select_run patch f w :
  update_select patch f w =
    match next_fault w with
    | Some e => (Ret (error_response e), served w)
    | None =>
        (Ret (ok_response ((fun r => patch ∪ r) <$> selected f w)),
         set_table ((fun r => if matches f r then patch ∪ r else r) <$> table w)
           (served w))
    end.
Proof. unfold update_select, selected. run_request. Qed.

Lemma flagged_update flag email t :
  (fun r => if matches (FEq "email" email) r
            then {["approved" := VBool flag]} ∪ r else r) <$> t =
  flagged flag email t.
Proof.
  unfold flagged. apply list_fmap_ext. intros _ r _.
  destruct (matches _ r); [|done]. by rewrite insert_union_singleton_l.
Qed.

Lemma flagged_nobody flag email t :
  List.filter (matches (FEq "email" email)) t = [] -> flagged flag email t = t.
Proof.
  induction t as [|r t IH]; [done|]. cbn [List.filter].
  destruct (matches (FEq "email" email) r) eqn:Hr; [done|].
  intros Ht. unfold flagged in *. rewrite fmap_cons, Hr. f_equal. by apply IH.
Qed.

Lemma selected_flagged pat flag email w w' :
  table w' = flagged flag email (table w) ->
  selected (FIlike "username" pat) w' =
  flagged flag email (selected (FIlike "username" pat) w).
Proof.
  intros Ht. unfold selected, flagged. rewrite Ht.
  apply filter_fmap_stable. intros r.
  destruct (matches (FEq "email" email) r); [|done].
  unfold matches. by rewrite lookup_insert_ne.
Qed.

Lemma signup_results `{BcryptCore} user w :
  ∃ res w',
    signupUser user w = (Ret res, w') ∧
    ∀ msg, res = SignupError msg -> msg ∈ signup_messages.
Proof.
  rewrite signup_lookup.
  assert (∀ msg : string, msg ∈ signup_messages ↔
            msg = "Email already registered" ∨
            msg = "data and salt arguments required" ∨
            msg = "data must be a string or Buffer and salt must either be a salt string or a number of rounds")
    as Hmsgs.
  { intros msg. unfold signup_messages. rewrite !elem_of_cons, elem_of_nil. tauto. }
  assert (∃ res w', signup_rest user (served w) = (Ret res, w') ∧
            ∀ msg, res = SignupError msg -> msg ∈ signup_messages) as Hrest.
  { rewrite signup_rest_run.
    destruct (get user "password");
      try (eexists _, _; split; [done|]; intros msg [= <-]; apply Hmsgs; tauto).
    destruct (next_fault (served w)); eexists _, _; (split; [done|]); by intros. }
  destruct (next_fault w); [done|].
  destruct (selected _ w) as [|r [|]]; try done.
  eexists _, _. split; [done|]. intros msg [= <-]. apply Hmsgs. tauto.
Qed.

Lemma signup_message_truthy msg : msg ∈ signup_messages -> truthy (VStr msg) = true.
Proof.
  unfold signup_messages. rewrite !elem_of_cons, elem_of_nil.
  intros [->|[->|[->|[]]]]; by vm_compute.
Qed.

Section routes2.
Context `{BcryptCore}.

(** X16: the signup route answers 400 with signup's own error whenever the
    signup fails, and sends no mail then; after a successful signup it mails
    the administrator and answers 200, unless the mail is not accepted: then
    it answers 500 although the record has been inserted. *)
Theorem signup_route_answers env user s :
  ∃ resp s',
    signup_route env user s = (Ret resp, s') ∧
    store s' = (signupUser user (store s)).2 ∧
    match (signupUser user (store s)).1 with
    | Ret (SignupMessage _) =>
        if mail_accepted (approval_request env user) s
        then resp = Http 200 (Json [("message",
                      JValue (VStr "Signup submitted! Waiting for admin approval."))]) ∧
             outbox s' = outbox s ++ [approval_request env user]
        else resp = Http 500 (Json [("error", JValue (VStr "Unexpected signup error"))]) ∧
             outbox s' = outbox s
    | Ret (SignupError msg) =>
        resp = Http 400 (Json [("error", JValue (VStr msg))]) ∧
        outbox s' = outbox s ∧ mail_faults s' = mail_faults s
    | Ret (SignupStoreError e) =>
        resp = Http 400 (Json [("error", JError e)]) ∧
        outbox s' = outbox s ∧ mail_faults s' = mail_faults s
    | _ => False
    end.
Proof.
  destruct (signup_results user (store s)) as (res & w' & Hrun & Hmsg).
  unfold signup_route, try_catchS, bindS, lift. rewrite Hrun. cbn [fst snd].
  destruct res as [msg|e|msg]; cbn [signup_error json_truthy].
  - rewrite (signup_message_truthy msg) by by apply Hmsg. by eexists _, _.
  - by eexists _, _.
  - destruct (sendMail_run (approval_request env user)
                (Server w' (outbox s) (mail_faults s))) as (r & -> & Hr).
    change (mail_accepted (approval_request env user)
              (Server w' (outbox s) (mail_faults s)))
      with (mail_accepted (approval_request env user) s) in *.
    destruct (mail_accepted _ s).
    + subst r. by eexists _, _.
    + destruct Hr as [msg' ->]. by eexists _, _.
Qed.

(** X17: the approve route answers 500 when the store reports an error and
    404 when no row has the email, and changes nothing then; otherwise every
    row with the email is set approved, and the answer is 200 with a mail to
    the address, or 500 without one when the mail is not accepted: the
    account stays approved all the same. *)
Theorem approve_route_answers env email s :
  ∃ resp s',
    approve_route env email s = (Ret resp, s') ∧
    match next_fault (store s) with
    | Some _ =>
        resp = Http 500 (Text "Failed to approve user") ∧
        table (store s') = table (store s) ∧ outbox s' = outbox s
    | None =>
        table (store s') = flagged true email (table (store s)) ∧
        match selected (FEq "email" email) (store s) with
        | [] =>
            resp = Http 404 (Text "User not found") ∧
            table (store s') = table (store s) ∧ outbox s' = outbox s
        | _ =>
            if mail_accepted (approval_notice env email) s
            then resp = Http 200 (Text "User approved and notified!") ∧
                 outbox s' = outbox s ++ [approval_notice env email]
            else resp = Http 500 (Text "Error approving user") ∧
                 outbox s' = outbox s
        end
    end.
Proof.
  unfold approve_route, try_catchS, bindS, lift. rewrite update_select_run.
  destruct (next_fault (store s)); [by eexists _, _|].
  rewrite flagged_update. cbn [error data ok_response fst snd].
  destruct (selected (FEq "email" email) (store s)) as [|r rows] eqn:Hs.
  { eexists _, _. split; [done|]. cbn [store table set_table outbox].
    split_and!; try done. by apply flagged_nobody. }
  cbn [fmap list_fmap].
  destruct (sendMail_run (approval_notice env email)
              (Server (set_table (flagged true email (table (store s)))
                         (served (store s))) (outbox s) (mail_faults s)))
    as (res & -> & Hres).
  match type of Hres with
  | if mail_accepted ?m ?s' then _ else _ =>
      change (mail_accepted m s') with (mail_accepted m s) in *
  end.
  destruct (mail_accepted _ s).
  - subst res. by eexists _, _.
  - destruct Hres as [msg ->]. by eexists _, _.
Qed.

(** X18: the reject route never looks at what the store answered: whether
    the update was refused or no row has the email, it sends the rejection
    mail and answers 200 (or 500 when the mail is not accepted); when the
    update is served, every row with the email is set unapproved. *)
Theorem reject_route_answers env email s :
  ∃ resp s',
    reject_route env email s = (Ret resp, s') ∧
    table (store s') =
      match next_fault (store s) with
      | Some _ => table (store s)
      | None => flagged false email (table (store s))
      end ∧
    if mail_accepted (rejection_notice env email) s
    then resp = Http 200 (Text "User rejected and notified!") ∧
         outbox s' = outbox s ++ [rejection_notice env email]
    else resp = Http 500 (Text "Error rejecting user") ∧ outbox s' = outbox s.
Proof.
  unfold reject_route, try_catchS, bindS, lift. rewrite update_run.
  destruct (next_fault (store s)); cbn [fst snd]; rewrite ?flagged_update.
  all: match goal with
       | |- context [sendMail ?m ?s'] =>
           destruct (sendMail_run m s') as (res & -> & Hres);
           change (mail_accepted m s') with (mail_accepted m s) in *
       end;
    destruct (mail_accepted _ s);
    [subst res; by eexists _, _|destruct Hres as [msg ->]; by eexists _, _].
Qed.
End routes2.

(** ** The approval gate, end to end *)

Section approval.
Context `{BcryptCore}.

Lemma migrate_after_verify user password stored w w1 :
  verify password stored w = (Ret true, w) ->
  ∃ w2, migrate user password stored w1 = (Ret tt, w2).
Proof.
  intros Hv. destruct (isHashed stored) eqn:Hh.
  - unfold migrate. rewrite Hh. by eexists.
  - rewrite verify_legacy in Hv by done. injection Hv as Hv.
    apply bool_decide_eq_true in Hv as ->. rewrite migrate_run by done.
    by eexists.
Qed.

(** A login that finds one approved record whose credential verifies. *)
Lemma login_verified username password w user stored :
  next_fault w = None ->
  selected (FIlike "username" (ToString username)) w = [user] ->
  truthy (get user "approved") = true ->
  js_or (get user "password") (VStr "") = VStr stored ->
  (∀ w0, verify password stored w0 = (Ret true, w0)) ->
  (loginUserByUsername username password w).1 =
    Ret (LoginUser (delete "password" user)).
Proof.
  intros Hf Hs Ha Hp Hv. rewrite login_lookup, Hf, Hs, Ha, Hp. cbn [negb].
  unfold try_catch, bind. rewrite Hv. cbn [negb].
  by destruct (migrate_after_verify user password stored _ (served w) (Hv (served w)))
    as [w2 ->].
Qed.

Lemma approve_route_store env email s :
  next_fault (store s) = None ->
  store (approve_route env email s).2 =
    set_table (flagged true email (table (store s))) (served (store s)).
Proof.
  intros Hf. unfold approve_route, try_catchS, bindS, lift.
  rewrite update_select_run, Hf, flagged_update. cbn [error data ok_response fst snd].
  destruct (selected (FEq "email" email) (store s)) as [|r rows]; [done|].
  cbn [fmap list_fmap].
  match goal with
  | |- context [sendMail ?m ?s'] => destruct (sendMail_run m s') as (res & -> & Hres)
  end.
  destruct (mail_accepted _ _); [by subst res|]. by destruct Hres as [msg ->].
Qed.

Lemma reject_route_store env email s :
  next_fault (store s) = None ->
  store (reject_route env email s).2 =
    set_table (flagged false email (table (store s))) (served (store s)).
Proof.
  intros Hf. unfold reject_route, try_catchS, bindS, lift.
  rewrite update_run, Hf, flagged_update. cbn [fst snd].
  match goal with
  | |- context [sendMail ?m ?s'] => destruct (sendMail_run m s') as (res & -> & Hres)
  end.
  destruct (mail_accepted _ _); [by subst res|]. by destruct Hres as [msg ->].
Qed.

Lemma flag_found flag username email user w w' :
  faults w = [] ->
  w' = set_table (flagged flag (VStr email) (table w)) (served w) ->
  selected (FIlike "username" (ToString username)) w = [user] ->
  get user "email" = VStr email ->
  next_fault w' = None ∧
  selected (FIlike "username" (ToString username)) w' =
    [<["approved" := VBool flag]> user].
Proof.
  intros Hf -> Hs He. split.
  { unfold next_fault. cbn. by rewrite Hf. }
  rewrite (selected_flagged _ flag (VStr email) w) by done. rewrite Hs.
  unfold flagged. cbn [fmap list_fmap].
  assert (matches (FEq "email" (VStr email)) user = true) as ->; [|done].
  unfold matches. rewrite (get_text _ _ _ He). cbn. apply String.eqb_refl.
Qed.

(** X19: an account that is pending cannot log in with its own password;
    once the approve route has been called with its email, it can, whether
    or not the notification mail went out. *)
Theorem approve_opens_login env username password email user stored s :
  faults (store s) = [] ->
  selected (FIlike "username" (ToString username)) (store s) = [user] ->
  get user "email" = VStr email ->
  truthy (get user "approved") = false ->
  js_or (get user "password") (VStr "") = VStr stored ->
  (∀ w, verify password stored w = (Ret true, w)) ->
  (loginUserByUsername username password (store s)).1 =
    Ret (LoginError "Account awaiting approval") ∧
  (loginUserByUsername username password
     (store (approve_route env (VStr email) s).2)).1 =
    Ret (LoginUser (delete "password" (<["approved" := VBool true]> user))).
Proof.
  intros Hf Hs He Ha Hp Hv. destruct (quiet_served _ Hf) as [_ Hn]. split.
  - by rewrite (login_unapproved _ _ _ user).
  - rewrite approve_route_store by done.
    destruct (flag_found true username email user (store s) _ Hf eq_refl Hs He)
      as [Hn' Hs'].
    apply (login_verified _ _ _ _ stored); [done|done| | |done].
    + unfold get. by rewrite lookup_insert_eq.
    + unfold get in *. by rewrite lookup_insert_ne.
Qed.

(** X20: once the reject route has been called with the email of an
    account, that account is answered 'Account awaiting approval' whatever
    password is given, also when it could log in before. *)
Theorem reject_closes_login env username email user s :
  faults (store s) = [] ->
  selected (FIlike "username" (ToString username)) (store s) = [user] ->
  get user "email" = VStr email ->
  ∀ password,
    (loginUserByUsername username password
       (store (reject_route env (VStr email) s).2)).1 =
      Ret (LoginError "Account awaiting approval").
Proof.
  intros Hf Hs He password. destruct (quiet_served _ Hf) as [_ Hn].
  rewrite reject_route_store by done.
  destruct (flag_found false username email user (store s) _ Hf eq_refl Hs He)
    as [Hn' Hs'].
  rewrite (login_unapproved _ _ _ (<["approved" := VBool false]> user)); [done..|].
  unfold get. by rewrite lookup_insert_eq.
Qed.
End approval.

(** ** Runs of the properties above *)

Lemma baseUsername_shape_witness :
  Demo.quiet [] = Demo.quiet [] ∧
  spaceless "adelacruz1123" = true ∧
  toLowerCase "adelacruz1123" = "adelacruz1123" ∧
  (10 <= getFullYear (zone (Demo.quiet [])) (reference_date None (Demo.quiet [])) ->
   ∃ stem,
     "adelacruz1123" =
       stem +:+ padStart 2 (getMonth (zone (Demo.quiet [])) (reference_date None (Demo.quiet [])) + 1)
            +:+ padStart 2 (getFullYear (zone (Demo.quiet [])) (reference_date None (Demo.quiet [])) mod 100) ∧
     String.length (padStart 2 (getMonth (zone (Demo.quiet [])) (reference_date None (Demo.quiet [])) + 1)) = 2%nat ∧
     String.length (padStart 2 (getFullYear (zone (Demo.quiet [])) (reference_date None (Demo.quiet [])) mod 100)) = 2%nat).
Proof.
  apply (baseUsername_shape (VStr "  Ann") (VStr " de la Cruz ") None).
  vm_compute. reflexivity.
Defined.

Lemma baseUsername_collides_witness :
  baseUsername (VStr " Ann") (VStr "De La Cruz") None (Demo.quiet []) =
  baseUsername (VStr "alba") (VStr "dela cruz ") None (Demo.quiet []).
Proof. apply baseUsername_collides; reflexivity. Defined.

Lemma ensureUniqueUsername_on_base_witness :
  ∃ name,
    ensureUniqueUsername 2 "abelle1123" (Demo.quiet [Hive.fay]) =
      (Ret name, served (Demo.quiet [Hive.fay])) ∧
    (if decide ("abelle1123" ∈ lowered_names (snapshot "abelle1123" (Demo.quiet [Hive.fay])))
     then first_free_suffix "abelle1123"
            (lowered_names (snapshot "abelle1123" (Demo.quiet [Hive.fay]))) name
     else name = "abelle1123") ∧
    startsWith name "abelle1123" = true ∧
    name ∉ lowered_names (snapshot "abelle1123" (Demo.quiet [Hive.fay])).
Proof.
  apply (ensureUniqueUsername_on_base (VStr "Ann") (VStr "Belle") None (Demo.quiet [])).
  - vm_compute. reflexivity.
  - reflexivity.
  - apply (bool_decide_unpack _). vm_compute. exact I.
  - vm_compute. lia.
Defined.

Lemma login_hashed_credential_witness :
  Demo.login (VStr "DKeeper0124") (VStr "honey") (Demo.quiet [Hive.dora; Demo.alice]) =
    (Ret (LoginUser (delete "password" Hive.dora)),
     served (Demo.quiet [Hive.dora; Demo.alice])).
Proof.
  apply (login_hashed_credential (H := Demo.toy) (VStr "DKeeper0124") (VStr "honey")
           _ Hive.dora "$2b$12$......................#honey"); reflexivity.
Defined.

Lemma login_legacy_mismatch_witness :
  Demo.login (VStr "abc01") VUndef (Demo.quiet [Hive.dora; Demo.alice]) =
    (Ret (LoginError "Incorrect password"), served (Demo.quiet [Hive.dora; Demo.alice])).
Proof.
  apply (login_legacy_mismatch (H := Demo.toy) (VStr "abc01") VUndef
           _ Demo.alice "wax"); try reflexivity. discriminate.
Defined.

Lemma login_migration_failure_is_silent_witness :
  (Demo.login (VStr "abc01") (VStr "wax")
     (Hive.second_fails (PgError "fetch failed" "") [Demo.alice])).1 =
    Ret (LoginUser (delete "password" Demo.alice)) ∧
  table (Demo.login (VStr "abc01") (VStr "wax")
           (Hive.second_fails (PgError "fetch failed" "") [Demo.alice])).2 =
    table (Hive.second_fails (PgError "fetch failed" "") [Demo.alice]).
Proof.
  apply (login_migration_failure_is_silent (H := Demo.toy) (VStr "abc01")
           _ Demo.alice "wax" (PgError "fetch failed" "")); reflexivity.
Defined.

Lemma login_lookup_plain_witness :
  selected (FIlike "username" (ToString (VStr "ABC01")))
    (Demo.quiet [Demo.alice; Demo.bob]) =
  List.filter
    (fun r => match r !! "username" with
              | Some (VStr s) => same_username (ToString (VStr "ABC01")) s
              | _ => false
              end) (table (Demo.quiet [Demo.alice; Demo.bob])).
Proof. apply login_lookup_plain. reflexivity. Defined.

Lemma login_not_single_witness :
  Demo.login (VStr "%") (VStr "wax") (Demo.quiet [Demo.alice; Demo.bob]) =
    (Ret (LoginError "No account found"), served (Demo.quiet [Demo.alice; Demo.bob])).
Proof.
  apply (login_not_single (H := Demo.toy)). vm_compute. discriminate.
Defined.

Lemma signup_without_password_witness :
  ∃ msg,
    Demo.signup Hive.erin (Demo.quiet [Demo.alice]) =
      (Ret (SignupError msg), served (Demo.quiet [Demo.alice])) ∧
    msg ∈ signup_messages.
Proof.
  apply (signup_without_password (H := Demo.toy)).
  intros s Hs. vm_compute in Hs. discriminate Hs.
Defined.

Lemma signup_insert_refused_witness :
  (Demo.signup Demo.carol
     (Hive.second_fails (PgError "permission denied" "42501") [Demo.alice])).1 =
    Ret (SignupStoreError (PgError "permission denied" "42501")) ∧
  table (Demo.signup Demo.carol
           (Hive.second_fails (PgError "permission denied" "42501") [Demo.alice])).2 =
    table (Hive.second_fails (PgError "permission denied" "42501") [Demo.alice]).
Proof.
  apply (signup_insert_refused (H := Demo.toy) Demo.carol "nectar"); reflexivity.
Defined.

Lemma signup_duplicate_rejected_witness :
  Demo.signup Demo.mallory (Demo.quiet [Demo.alice; Demo.bob]) =
    (Ret (SignupError "Email already registered"),
     served (Demo.quiet [Demo.alice; Demo.bob])).
Proof.
  apply (signup_duplicate_rejected (H := Demo.toy) Demo.mallory _ Demo.alice);
    reflexivity.
Defined.

Lemma signup_twice_witness :
  (Demo.signup Demo.carol (Demo.quiet [Demo.alice])).1 =
    Ret (SignupMessage "Signup successful, awaiting approval") ∧
  table (Demo.signup Demo.carol (Demo.quiet [Demo.alice])).2 =
    table (Demo.quiet [Demo.alice])
      ++ [stored_record (H := Demo.toy) Demo.carol "nectar" (Demo.quiet [Demo.alice])] ∧
  (Demo.signup Demo.carol (Demo.signup Demo.carol (Demo.quiet [Demo.alice])).2).1 =
    Ret (SignupError "Email already registered") ∧
  table (Demo.signup Demo.carol (Demo.signup Demo.carol (Demo.quiet [Demo.alice])).2).2 =
    table (Demo.signup Demo.carol (Demo.quiet [Demo.alice])).2.
Proof.
  apply (signup_twice (H := Demo.toy) Demo.carol "carol@hive.test" "nectar");
    reflexivity.
Defined.


Lemma approve_opens_login_witness :
  (Demo.login (VStr "abc01-2") (VStr "comb")
     (store (Hive.running [Demo.alice; Demo.bob]))).1 =
    Ret (LoginError "Account awaiting approval") ∧
  (Demo.login (VStr "abc01-2") (VStr "comb")
     (store (approve_route Hive.env (VStr "bob@hive.test")
               (Hive.running [Demo.alice; Demo.bob])).2)).1 =
    Ret (LoginUser (delete "password" (<["approved" := VBool true]> Demo.bob))).
Proof.
  apply (approve_opens_login (H := Demo.toy) Hive.env (VStr "abc01-2") (VStr "comb")
           "bob@hive.test" Demo.bob "comb"); reflexivity.
Defined.

Lemma reject_closes_login_witness :
  (Demo.login (VStr "abc01") (VStr "wax")
     (store (reject_route Hive.env (VStr "alice@hive.test")
               (Hive.running [Demo.alice; Demo.bob])).2)).1 =
    Ret (LoginError "Account awaiting approval").
Proof.
  apply (reject_closes_login (H := Demo.toy) Hive.env (VStr "abc01")
           "alice@hive.test" Demo.alice); reflexivity.
Defined.

Lemma setMonth_three_months_witness :
  ∃ wall,
    setMonth Hive.new_york 1708016400000 (getMonth Hive.new_york 1708016400000 + 3)
      = UTC Hive.new_york wall ∧
    month_index wall = month_index (LocalTime Hive.new_york 1708016400000) + 3 ∧
    DateFromTime wall = DateFromTime (LocalTime Hive.new_york 1708016400000) ∧
    TimeWithinDay wall = TimeWithinDay (LocalTime Hive.new_york 1708016400000) ∧
    (offset_at Hive.new_york (UTC Hive.new_york wall) = offset_of_local Hive.new_york wall ->
     LocalTime Hive.new_york
       (setMonth Hive.new_york 1708016400000 (getMonth Hive.new_york 1708016400000 + 3))
       = wall).
Proof. apply setMonth_three_months. vm_compute. discriminate. Defined.

(** From noon on 15 February in New York to noon on 15 May: an hour less
    than three months of UTC, over the change to daylight saving time. *)
Example setMonth_over_daylight_saving :
  toISOString (clock (Hive.eastern [])) = "2024-02-15T17:00:00.000Z" ∧
  toISOString (setMonth Hive.new_york (clock (Hive.eastern []))
                 (getMonth Hive.new_york (clock (Hive.eastern [])) + 3))
    = "2024-05-15T16:00:00.000Z".
Proof. split; vm_compute; reflexivity. Qed.

(** At 2024-03-01T02:00Z it is still 29 February in New York. *)
Example setMonth_behind_utc :
  toISOString 1709258400000 = "2024-03-01T02:00:00.000Z" ∧
  toISOString (setMonth Hive.new_york 1709258400000
                 (getMonth Hive.new_york 1709258400000 + 3))
    = "2024-05-30T01:00:00.000Z".
Proof. split; vm_compute; reflexivity. Qed.

(** ** Signup, then the account queries *)

Lemma getRole_found email w record :
  next_fault w = None ->
  selected (FEq "email" email) w = [record] ->
  getRole email w = (Ret (RoleOk (get record "role")), served w) ∧
  isActive email w = (Ret (ActiveOk (get record "active")), served w).
Proof.
  intros Hf Hs. unfold getRole, isActive, bind.
  rewrite !single_run, Hf, Hs. cbn [error data ok_response].
  unfold ret. split; by rewrite lookup_project by set_solver.
Qed.

(** X24: a candidate that names its own [role] (a text) and [active] (a
    boolean) is stored with them: after the signup of a new email in a
    store that answers, [getRole] and [isActive] for that email answer what
    the candidate itself supplied. *)
Theorem signup_then_account_queries `{BcryptCore} user email plaintext role active w :
  faults w = [] ->
  get user "email" = VStr email ->
  selected (FEq "email" (VStr email)) w = [] ->
  get user "password" = VStr plaintext ->
  user !! "role" = Some (VStr role) ->
  user !! "active" = Some (VBool active) ->
  (getRole (VStr email) (signupUser user w).2).1 = Ret (RoleOk (VStr role)) ∧
  (isActive (VStr email) (signupUser user w).2).1 = Ret (ActiveOk (VBool active)).
Proof.
  intros Hf He Hs Hp Hrole Hactive.
  destruct (signup_fresh_run user plaintext w Hf) as (w' & -> & Ht & Hf');
    [by rewrite He|done|].
  cbn [snd]. destruct (quiet_served w' Hf') as [Hw' Hn'].
  assert (selected (FEq "email" (VStr email)) w' = [stored_record user plaintext w])
    as Hs'.
  { rewrite (selected_app _ w' _ _ Ht). fold (selected (FEq "email" (VStr email)) w).
    rewrite Hs. cbn [app List.filter].
    assert (matches (FEq "email" (VStr email)) (stored_record user plaintext w) = true)
      as ->; [|done].
    unfold matches. rewrite stored_record_lookup by done.
    unfold record_at, signup_record. rewrite !lookup_insert_ne by done.
    rewrite (get_text _ _ _ He). cbn. apply String.eqb_refl. }
  destruct (getRole_found (VStr email) w' _ Hn' Hs') as [-> ->]. cbn [fst].
  unfold get. rewrite !stored_record_lookup by done.
  unfold record_at, signup_record. rewrite !lookup_insert_ne by done.
  by rewrite Hrole, Hactive.
Qed.

Lemma signup_then_account_queries_witness :
  (getRole (VStr "gwen@hive.test") (Demo.signup Hive.gwen (Demo.quiet [Demo.alice])).2).1
    = Ret (RoleOk (VStr "admin")) ∧
  (isActive (VStr "gwen@hive.test") (Demo.signup Hive.gwen (Demo.quiet [Demo.alice])).2).1
    = Ret (ActiveOk (VBool true)).
Proof.
  apply (signup_then_account_queries (H := Demo.toy) Hive.gwen "gwen@hive.test" "pollen");
    reflexivity.
Defined.
